(** * A model of the YouTube downloader API service (src/main.py)

    The FastAPI service keeps two process-wide dicts, [video_cache] and
    [last_request_time], and drives the extraction engine (yt-dlp), an
    external library, through a retry loop over client profiles.  The
    engine is modelled as an oracle: the answer to the k-th engine call of
    a request, given the client list it was configured with.  Every engine
    call is recorded in an event trace, so that the number of upstream
    calls of a request can be read off the trace.

    Python floats returned by [time.time()] are modelled as exact
    rationals [Q]; one request reads the clock once ([now]). *)

From Stdlib Require Import ZArith QArith Lqa String Ascii List Bool.
From stdpp Require Import base gmap strings.
Import ListNotations.

Open Scope string_scope.
Set Warnings "-register-all".


(* ------------------------------------------------------------------ *)
(** ** JSON-like values and Python dicts *)

Inductive val :=
| VNull
| VBool (b : bool)
| VInt (z : Z)
| VStr (s : string)
| VList (l : list val)
| VObj (fs : list (string * val)).

(** Python truthiness of a value ([if not x:]). *)
Definition truthy (v : val) : bool :=
  match v with
  | VNull => false
  | VBool b => b
  | VInt z => negb (Z.eqb z 0)
  | VStr s => negb (String.eqb s "")
  | VList l => negb (Nat.eqb (List.length l) 0)
  | VObj fs => negb (Nat.eqb (List.length fs) 0)
  end.

(** [d.get(k, default)] *)
Definition get (d : gmap string val) (k : string) (dflt : val) : val :=
  match d !! k with Some v => v | None => dflt end.

(** [bool(d)] for a dict: non-empty. *)
Definition dict_truthy (d : gmap string val) : bool :=
  negb (bool_decide (d = ∅)).

(** [{k1: v1, ..., kn: vn}] built from a list of pairs, later keys win. *)
Definition dict_of (l : list (string * val)) : gmap string val :=
  fold_left (fun m kv => <[fst kv := snd kv]> m) l ∅.

(* ------------------------------------------------------------------ *)
(** ** Python string operations *)

Fixpoint prefixb (p s : string) : bool :=
  match p, s with
  | EmptyString, _ => true
  | String a p', String b s' => Ascii.eqb a b && prefixb p' s'
  | String _ _, EmptyString => false
  end.

(** [p in s] *)
Fixpoint contains (p s : string) : bool :=
  prefixb p s ||
  match s with
  | EmptyString => false
  | String _ s' => contains p s'
  end.

(** [s.split(c)] for a one-character separator. *)
Fixpoint split (c : ascii) (s : string) : list string :=
  match s with
  | EmptyString => [EmptyString]
  | String x s' =>
      let r := split c s' in
      if Ascii.eqb x c then EmptyString :: r
      else match r with
           | h :: t => String x h :: t
           | [] => [String x EmptyString]
           end
  end.

(** [l[-1]] and [l[0]] on the (never empty) result of [split]. *)
Definition last_of (l : list string) : string := List.last l EmptyString.
Definition first_of (l : list string) : string := List.hd EmptyString l.

(* ------------------------------------------------------------------ *)
(** ** [validate_youtube_url]: the two regexes, with [re.match] *)

Inductive regex :=
| RChr (c : ascii)
| RNot (cs : list ascii)            (* [^...] *)
| RAny                              (* .  (not a newline) *)
| RSeq (r1 r2 : regex)
| RAlt (r1 r2 : regex)
| ROpt (r : regex)                  (* r? *)
| RPlus (r : regex)                 (* r+ *)
| RRep (n : nat) (r : regex).       (* r{n} *)

(** All the remainders of [s] after a match of [r] at its start
    (backtracking order). *)
Fixpoint mtch (r : regex) (s : string) : list string :=
  match r with
  | RChr c =>
      match s with String x s' => if Ascii.eqb x c then [s'] else [] | _ => [] end
  | RNot cs =>
      match s with
      | String x s' => if existsb (Ascii.eqb x) cs then [] else [s']
      | _ => []
      end
  | RAny =>
      match s with
      | String x s' => if Ascii.eqb x "010"%char then [] else [s']
      | _ => []
      end
  | RSeq r1 r2 => flat_map (mtch r2) (mtch r1 s)
  | RAlt r1 r2 => app (mtch r1 s) (mtch r2 s)
  | ROpt r1 => app (mtch r1 s) [s]
  | RPlus r1 =>
      (fix go (n : nat) (s0 : string) : list string :=
         match n with
         | O => []
         | S n' => flat_map (fun s' => app (go n' s') [s']) (mtch r1 s0)
         end) (S (String.length s)) s
  | RRep n r1 =>
      (fix rep (k : nat) (s0 : string) : list string :=
         match k with
         | O => [s0]
         | S k' => flat_map (rep k') (mtch r1 s0)
         end) n s
  end.

(** [re.match(r, s)] anchors at the start only. *)
Definition re_match (r : regex) (s : string) : bool :=
  match mtch r s with [] => false | _ => true end.

Fixpoint lit (s : string) : regex :=
  match s with
  | EmptyString => ROpt (RNot []) (* never used on the empty string *)
  | String c EmptyString => RChr c
  | String c s' => RSeq (RChr c) (lit s')
  end.

Definition alts (r : regex) (rs : list regex) : regex := fold_left RAlt rs r.

(** [[^&=%\?]{11}] *)
Definition video_id_re : regex := RRep 11 (RNot ["&"; "="; "%"; "?"]%char).

Definition youtube_regex : regex :=
  RSeq (ROpt (RSeq (lit "http") (RSeq (ROpt (RChr "s"%char)) (lit "://"))))
  (RSeq (ROpt (lit "www."))
  (RSeq (alts (lit "youtube") [lit "youtu"; lit "youtube-nocookie"])
  (RSeq (RChr "."%char)
  (RSeq (alts (lit "com") [lit "be"])
  (RSeq (RChr "/"%char)
  (RSeq (ROpt (alts (lit "watch?v=") [lit "embed/"; lit "v/";
                                       RSeq (RPlus RAny) (lit "?v=")]))
        video_id_re)))))).

Definition youtu_be_regex : regex :=
  RSeq (ROpt (RSeq (lit "http") (RSeq (ROpt (RChr "s"%char)) (lit "://"))))
  (RSeq (ROpt (lit "www."))
  (RSeq (lit "youtu.be/") video_id_re)).

Definition validate_youtube_url (url : string) : bool :=
  re_match youtube_regex url || re_match youtu_be_regex url.

(** ** [normalize_youtube_url] *)
Definition normalize_youtube_url (url : string) : string :=
  if contains "youtu.be" url then
    let video_id := first_of (split "?"%char (last_of (split "/"%char url))) in
    "https://www.youtube.com/watch?v=" ++ video_id
  else if contains "youtube.com" url && contains "v=" url then url
  else url.


(* ------------------------------------------------------------------ *)
(** ** [hashlib.md5(s.encode()).hexdigest()] *)

Module MD5.

Local Open Scope Z_scope.

(** [str.encode()] (UTF-8) for code points below 256. *)
Definition encode (s : string) : list Z :=
  flat_map (fun c => let n := Z.of_nat (nat_of_ascii c) in
                     if Z.ltb n 128 then [n]
                     else [Z.lor 192 (Z.shiftr n 6); Z.lor 128 (Z.land n 63)])
           (list_ascii_of_string s).

Definition mask32 : Z := 4294967295.
Definition add32 (a b : Z) : Z := Z.land (a + b) mask32.
Definition not32 (x : Z) : Z := Z.lxor x mask32.
Definition rotl (x : Z) (c : Z) : Z :=
  Z.land (Z.lor (Z.shiftl x c) (Z.shiftr x (32 - c))) mask32.

Definition K : list Z :=
  [ 3614090360; 3905402710; 606105819; 3250441966; 4118548399; 1200080426;
    2821735955; 4249261313; 1770035416; 2336552879; 4294925233; 2304563134;
    1804603682; 4254626195; 2792965006; 1236535329; 4129170786; 3225465664;
    643717713; 3921069994; 3593408605; 38016083; 3634488961; 3889429448;
    568446438; 3275163606; 4107603335; 1163531501; 2850285829; 4243563512;
    1735328473; 2368359562; 4294588738; 2272392833; 1839030562; 4259657740;
    2763975236; 1272893353; 4139469664; 3200236656; 681279174; 3936430074;
    3572445317; 76029189; 3654602809; 3873151461; 530742520; 3299628645;
    4096336452; 1126891415; 2878612391; 4237533241; 1700485571; 2399980690;
    4293915773; 2240044497; 1873313359; 4264355552; 2734768916; 1309151649;
    4149444226; 3174756917; 718787259; 3951481745 ].

Definition Sh : list Z :=
  [7; 12; 17; 22; 7; 12; 17; 22; 7; 12; 17; 22; 7; 12; 17; 22;
   5; 9; 14; 20; 5; 9; 14; 20; 5; 9; 14; 20; 5; 9; 14; 20;
   4; 11; 16; 23; 4; 11; 16; 23; 4; 11; 16; 23; 4; 11; 16; 23;
   6; 10; 15; 21; 6; 10; 15; 21; 6; 10; 15; 21; 6; 10; 15; 21].

(** little-endian bytes of a [w]-byte number *)
Definition le_bytes (w : nat) (x : Z) : list Z :=
  map (fun i => Z.land (Z.shiftr x (8 * Z.of_nat i)) 255) (seq 0 w).

Definition pad (msg : list Z) : list Z :=
  let len := Z.of_nat (List.length msg) in
  msg ++ [128] ++ repeat 0 (Z.to_nat ((55 - len) mod 64))
      ++ le_bytes 8 (8 * len).

Fixpoint words (b : list Z) : list Z :=
  match b with
  | b0 :: b1 :: b2 :: b3 :: rest =>
      (b0 + 256 * b1 + 65536 * b2 + 16777216 * b3) :: words rest
  | _ => []
  end.

Definition round (M : list Z) (st : Z * Z * Z * Z) (i : nat) : Z * Z * Z * Z :=
  let '(A, B, C, D) := st in
  let '(F, g) :=
    if Nat.ltb i 16 then (Z.lor (Z.land B C) (Z.land (not32 B) D), i)
    else if Nat.ltb i 32 then (Z.lor (Z.land D B) (Z.land (not32 D) C), (5 * i + 1) mod 16)%nat
    else if Nat.ltb i 48 then (Z.lxor B (Z.lxor C D), (3 * i + 5) mod 16)%nat
    else (Z.lxor C (Z.lor B (not32 D)), (7 * i) mod 16)%nat in
  let F := add32 (add32 (add32 F A) (nth i K 0)) (nth g M 0) in
  (D, add32 B (rotl F (nth i Sh 0)), B, C).

Definition block (st : Z * Z * Z * Z) (M : list Z) : Z * Z * Z * Z :=
  let '(a0, b0, c0, d0) := st in
  let '(A, B, C, D) := fold_left (round M) (seq 0 64) st in
  (add32 a0 A, add32 b0 B, add32 c0 C, add32 d0 D).

Fixpoint blocks (fuel : nat) (st : Z * Z * Z * Z) (b : list Z) : Z * Z * Z * Z :=
  match fuel with
  | O => st
  | S f =>
      match b with
      | [] => st
      | _ => blocks f (block st (words (firstn 64 b))) (skipn 64 b)
      end
  end.

Definition hex_digit (n : Z) : ascii :=
  if Z.ltb n 10 then ascii_of_nat (48 + Z.to_nat n)
  else ascii_of_nat (87 + Z.to_nat n).

Definition hex_byte (b : Z) : list ascii :=
  [hex_digit (Z.shiftr b 4); hex_digit (Z.land b 15)].

Definition hexdigest (s : string) : string :=
  let b := pad (encode s) in
  let '(a, b', c, d) := blocks (List.length b) (1732584193, 4023233417, 2562383102, 271733878) b in
  string_of_list_ascii
    (flat_map hex_byte (flat_map (le_bytes 4) [a; b'; c; d])).

End MD5.

(** [get_cache_key(url, quality="", format="")] *)
Definition get_cache_key (url : string) (quality format : string) : string :=
  MD5.hexdigest (url ++ "_" ++ quality ++ "_" ++ format).


(* ------------------------------------------------------------------ *)
(** ** Process-wide state: [video_cache] and [last_request_time] *)

Record cache_entry := { c_info : gmap string val; c_expiry : Q }.

Record server := {
  now : Q;                                   (* [time.time()] for this request *)
  video_cache : gmap string cache_entry;
  last_request_time : gmap string Q
}.

Definition set_cache (st : server) (vc : gmap string cache_entry) : server :=
  {| now := now st; video_cache := vc; last_request_time := last_request_time st |}.
Definition set_lrt (st : server) (l : gmap string Q) : server :=
  {| now := now st; video_cache := video_cache st; last_request_time := l |}.
Definition set_now (st : server) (t : Q) : server :=
  {| now := t; video_cache := video_cache st; last_request_time := last_request_time st |}.

Definition Qltb (x y : Q) : bool := negb (Qle_bool y x).

(** [cache_video_info(url, info, expiry_minutes)] *)
Definition cache_video_info_m (vc : gmap string cache_entry) (t : Q) (url : string)
    (info : gmap string val) (expiry_minutes : Z) : gmap string cache_entry :=
  let cache_key := get_cache_key url "" "" in
  let expiry_time := (t + inject_Z (expiry_minutes * 60))%Q in
  <[cache_key := {| c_info := info; c_expiry := expiry_time |}]> vc.

(** Every caller uses the default [expiry_minutes = 30]. *)
Definition cache_video_info (vc : gmap string cache_entry) (t : Q) (url : string)
    (info : gmap string val) : gmap string cache_entry :=
  cache_video_info_m vc t url info 30.

(** [get_cached_video_info(url)]: the new cache and the returned value
    ([None] for Python's [None]). *)
Definition get_cached_video_info (vc : gmap string cache_entry) (t : Q) (url : string)
    : gmap string cache_entry * option (gmap string val) :=
  let cache_key := get_cache_key url "" "" in
  match vc !! cache_key with
  | Some cached_data =>
      if Qltb t (c_expiry cached_data) then (vc, Some (c_info cached_data))
      else (delete cache_key vc, None)
  | None => (vc, None)
  end.

(* ------------------------------------------------------------------ *)
(** ** [rate_limit(calls_per_minute)] *)

Inductive admission :=
| Allowed (lrt : gmap string Q)
| Denied (wait_time : Q).

(** The check of the wrapper against [last_request_time]. *)
Definition admission_check (calls_per_minute : Z) (lrt : gmap string Q) (client_ip : string)
    (current_time : Q) : admission :=
  let interval := (inject_Z 60 / inject_Z calls_per_minute)%Q in
  match lrt !! client_ip with
  | Some last =>
      let time_diff := (current_time - last)%Q in
      if Qltb time_diff interval then Denied (interval - time_diff)%Q
      else Allowed (<[client_ip := current_time]> lrt)
  | None => Allowed (<[client_ip := current_time]> lrt)
  end.

(** [f"{x:.1f}"]: rounded half to even at one decimal. *)
Fixpoint digits_aux (fuel : nat) (n : Z) (acc : string) : string :=
  match fuel with
  | O => acc
  | S f =>
      let d := String (ascii_of_nat (48 + Z.to_nat (n mod 10)%Z)) EmptyString in
      if Z.ltb n 10 then d ++ acc else digits_aux f (n / 10)%Z (d ++ acc)
  end.
Definition z_to_string (n : Z) : string :=
  if Z.ltb n 0 then "-" ++ digits_aux 40 (- n)%Z "" else digits_aux 40 n "".

Definition round_half_even (q : Q) : Z :=
  let fl := Z.div (Qnum q) (Zpos (Qden q)) in
  let frac := (q - inject_Z fl)%Q in
  if Qltb frac (1 # 2) then fl
  else if Qltb (1 # 2) frac then (fl + 1)%Z
  else if Z.even fl then fl else (fl + 1)%Z.

Definition fmt1 (q : Q) : string :=
  let n := round_half_even (q * 10)%Q in
  let sign := if Z.ltb n 0 then "-" else "" in
  let m := Z.abs n in
  sign ++ z_to_string (m / 10)%Z ++ "." ++ z_to_string (m mod 10)%Z.

Definition rate_limit_detail (wait_time : Q) : string :=
  "Rate limit exceeded. Please wait " ++ fmt1 wait_time
  ++ " seconds before making another request.".

(** The responses of the endpoints: a JSON body, an [HTTPException], or
    a non-HTTP exception (its message), or no answer within the fuel. *)
Inductive response :=
| ROk (body : gmap string val)
| RHttp (status : Z) (detail : val)
| RRaise (msg : string)
| RStuck.

(** Calls made to the extraction engine, and the blocking sleeps. *)
Record engine_call := {
  ec_url : string;
  ec_clients : list string;   (* [extractor_args.youtube.player_client] *)
  ec_format : string          (* [format] option; "" when not set *)
}.

Inductive event :=
| ECall (c : engine_call)
| ESleep (secs : Q).

Definition ncalls (ev : list event) : nat :=
  List.length (List.filter (fun e => match e with ECall _ => true | _ => false end) ev).

(** What [ydl.extract_info] does at one call: a dict, [None], a
    [DownloadError] with its message, or another exception. *)
Inductive upstream :=
| UInfo (info : gmap string val)
| UNone
| UDownloadError (msg : string)
| UError (msg : string).

(** The engine: the answer to the [k]-th call of the run. *)
Definition engine := nat -> engine_call -> upstream.

(** The parameters FastAPI passes as keyword arguments. *)
Definition client_ip_of (kwargs : gmap string string) : string :=
  match kwargs !! "client_ip" with Some ip => ip | None => "unknown" end.

Definition rate_limit (calls_per_minute : Z)
    (func : server -> server * list event * response)
    (kwargs : gmap string string) (st : server) : server * list event * response :=
  let current_time := now st in
  let client_ip := client_ip_of kwargs in
  match admission_check calls_per_minute (last_request_time st) client_ip current_time with
  | Denied wait_time => (st, [], RHttp 429 (VStr (rate_limit_detail wait_time)))
  | Allowed lrt => func (set_lrt st lrt)
  end.

(* ------------------------------------------------------------------ *)
(** ** [/video/download] and its retry loop [get_download_info_enhanced] *)

Definition QUALITY_OPTIONS : list (string * string) :=
  [("highest", "best"); ("high", "best[height<=720]");
   ("medium", "best[height<=480]"); ("low", "best[height<=360]");
   ("audio_only", "bestaudio/best")].

Definition quality_option (quality : string) : option string :=
  match List.find (fun kv => String.eqb (fst kv) quality) QUALITY_OPTIONS with
  | Some kv => Some (snd kv)
  | None => None
  end.

Definition max_attempts : nat := 3.
Definition clients : list string := ["android"; "ios"; "web"; "mweb"].

Definition SIGN_IN : string := "Sign in to confirm you're not a bot".
Definition PRIVATE : string := "Private video".
Definition UNAVAILABLE : string := "Video unavailable".

Inductive attempt_result :=
| AInfo (info : gmap string val)
| AHttp (status : Z) (detail : val)
| ARaise (msg : string)
| ADiverge.

Definition sign_in_detail : val :=
  VObj [("error", VStr "Sign-in verification required");
        ("message", VStr "This video requires sign-in verification and cannot be accessed");
        ("suggestion", VStr "Try a different video or check back later");
        ("technical_info", VStr "YouTube's anti-bot measures are preventing access");
        ("fallback", VStr "Try using /video/fallback endpoint")].

Definition private_detail : val := VStr "This video is private and cannot be accessed.".
Definition unavailable_detail : val := VStr "This video is unavailable or has been deleted.".

(** The classification done once [attempts >= max_attempts]. *)
Definition classify_final (error_msg : string) : attempt_result :=
  if contains SIGN_IN error_msg then AHttp 403 sign_in_detail
  else if contains PRIVATE error_msg then AHttp 403 private_detail
  else if contains UNAVAILABLE error_msg then AHttp 404 unavailable_detail
  else AHttp 400 (VStr ("Error extracting video: " ++ error_msg)).

(** The [while attempts < max_attempts] loop; [k] numbers the engine
    calls.  A [None] answer neither returns nor counts an attempt, so
    the loop is run with fuel. *)
Fixpoint attempt_loop (eng : engine) (url fmt : string) (fuel k attempts : nat)
    : list event * attempt_result :=
  match fuel with
  | O => ([], ADiverge)
  | S fuel' =>
      if Nat.ltb attempts max_attempts then
        let current_client := nth (attempts mod List.length clients) clients "" in
        let c := {| ec_url := url; ec_clients := [current_client]; ec_format := fmt |} in
        match eng k c with
        | UInfo info => ([ECall c], AInfo info)
        | UNone =>
            let '(ev, r) := attempt_loop eng url fmt fuel' (S k) attempts in
            (ECall c :: ev, r)
        | UDownloadError error_msg =>
            let attempts' := S attempts in
            if Nat.leb max_attempts attempts' then ([ECall c], classify_final error_msg)
            else
              let '(ev, r) := attempt_loop eng url fmt fuel' (S k) attempts' in
              (ECall c :: ESleep 1 :: ev, r)
        | UError e =>
            let attempts' := S attempts in
            if Nat.leb max_attempts attempts' then ([ECall c], ARaise e)
            else
              let '(ev, r) := attempt_loop eng url fmt fuel' (S k) attempts' in
              (ECall c :: ESleep 1 :: ev, r)
        end
      else ([], AHttp 400 (VStr "Could not extract video information after multiple attempts."))
  end.

(** [get_download_info_enhanced()]: the loop, with the cache store done
    on its success path ([cache_video_info(url, info); return info]). *)
Definition get_download_info_enhanced (eng : engine) (url fmt : string) (fuel k : nat)
    (vc : gmap string cache_entry) (t : Q)
    : list event * gmap string cache_entry * attempt_result :=
  let '(ev, r) := attempt_loop eng url fmt fuel k 0 in
  match r with
  | AInfo info => (ev, cache_video_info vc t url info, r)
  | _ => (ev, vc, r)
  end.

Definition no_download_url_detail : val :=
  VObj [("error", VStr "No download URL available");
        ("message", VStr "Unable to generate download link. The video may be protected or unavailable.");
        ("suggestion", VStr "Try a different quality or format option")].

(** The part of the endpoint after the cache check. *)
Definition download_extract (eng : engine) (fuel k : nat) (url quality qfmt format : string)
    (st : server) : server * list event * response :=
  let fmt := if String.eqb format "mp3" then "bestaudio/best" else qfmt in
  let '(ev, vc, r) := get_download_info_enhanced eng url fmt fuel k (video_cache st) (now st) in
  let st := set_cache st vc in
  match r with
  | AInfo info =>
      let download_info := dict_of
        [("title", get info "title" (VStr "Unknown Title"));
         ("id", get info "id" (VStr "Unknown ID"));
         ("duration", get info "duration" VNull);
         ("filesize", get info "filesize" VNull);
         ("ext", get info "ext" VNull);
         ("format_id", get info "format_id" VNull);
         ("quality", VStr quality);
         ("requested_format", VStr format);
         ("download_url", get info "url" VNull);
         ("thumbnail", get info "thumbnail" VNull);
         ("cached", VBool false);
         ("extraction_method", VStr "enhanced")] in
      if negb (truthy (get info "url" VNull)) then (st, ev, RHttp 503 no_download_url_detail)
      else (st, ev, ROk download_info)
  | AHttp status detail => (st, ev, RHttp status detail)
  | ARaise _ =>
      (st, ev, RHttp 500 (VStr "Internal server error while processing download request."))
  | ADiverge => (st, ev, RStuck)
  end.

(** The body of [get_video_download_links], under the rate limiter. *)
Definition get_video_download_links_body (eng : engine) (fuel k : nat)
    (url quality format : string) (force_extract : bool) (st : server)
    : server * list event * response :=
  if negb (validate_youtube_url url) then (st, [], RHttp 400 (VStr "Invalid YouTube URL"))
  else
    match quality_option quality with
    | None => (st, [], RHttp 400 (VStr "Invalid quality option"))
    | Some qfmt =>
        let url := normalize_youtube_url url in
        let '(vc, cached_info) :=
          if force_extract then (video_cache st, None)
          else get_cached_video_info (video_cache st) (now st) url in
        let st := set_cache st vc in
        match cached_info with
        | Some ci =>
            if dict_truthy ci then
              (st, [], ROk (dict_of
                 [("cached", VBool true);
                  ("title", get ci "title" (VStr "Unknown Title"));
                  ("id", get ci "id" (VStr "Unknown ID"));
                  ("duration", get ci "duration" VNull);
                  ("download_url", get ci "url" VNull);
                  ("quality", VStr quality);
                  ("format", VStr format)]))
            else download_extract eng fuel k url quality qfmt format st
        | None => download_extract eng fuel k url quality qfmt format st
        end
    end.

(** The keyword arguments FastAPI passes to the decorated endpoint. *)
Definition download_kwargs (url quality format force_extract : string) : gmap string string :=
  list_to_map [("url", url); ("quality", quality); ("format", format);
               ("force_extract", force_extract); ("request", "None")].

Definition bool_str (b : bool) : string := if b then "True" else "False".

(** [GET /video/download]: [@rate_limit(calls_per_minute=20)]. *)
Definition get_video_download_links (eng : engine) (fuel k : nat)
    (url quality format : string) (force_extract : bool) (st : server)
    : server * list event * response :=
  rate_limit 20 (get_video_download_links_body eng fuel k url quality format force_extract)
    (download_kwargs url quality format (bool_str force_extract)) st.

(* ------------------------------------------------------------------ *)
(** ** [extract_video_info] and [try_alternative_extraction] *)

Inductive ext_result :=
| XInfo (info : gmap string val)
| XHttp (status : Z) (detail : val).

Definition sign_in_alt_detail : val :=
  VObj [("error", VStr "Sign-in required");
        ("message", VStr "This video requires sign-in verification and cannot be accessed through automated means");
        ("suggestion", VStr "Try a different video or check if the video has age restrictions");
        ("workaround", VStr "Some videos may work later due to YouTube's rotating restrictions")].

(** Methods 1-3: android, ios, web; every failure falls through. *)
Fixpoint try_alternatives (eng : engine) (url : string) (k : nat) (methods : list (list string))
    : list event * ext_result :=
  match methods with
  | [] => ([], XHttp 403 sign_in_alt_detail)
  | m :: rest =>
      let c := {| ec_url := url; ec_clients := m; ec_format := "" |} in
      match eng k c with
      | UInfo info => ([ECall c], XInfo info)
      | _ => let '(ev, r) := try_alternatives eng url (S k) rest in (ECall c :: ev, r)
      end
  end.

Definition try_alternative_extraction (eng : engine) (k : nat) (url : string)
    : list event * ext_result :=
  try_alternatives eng url k [["android"]; ["ios"]; ["web"]].

Definition internal_video_error : val := VStr "Internal server error while processing video.".

Definition extract_video_info (eng : engine) (k : nat) (url : string) : list event * ext_result :=
  let c := {| ec_url := url; ec_clients := ["android"; "web"; "ios"; "mweb"]; ec_format := "" |} in
  match eng k c with
  | UInfo info => ([ECall c], XInfo info)
  | UNone =>
      (* the [HTTPException(400)] raised inside the [try] is caught by
         its [except Exception] clause *)
      ([ECall c], XHttp 500 internal_video_error)
  | UDownloadError error_msg =>
      if contains SIGN_IN error_msg then
        let '(ev, r) := try_alternative_extraction eng (S k) url in (ECall c :: ev, r)
      else if contains PRIVATE error_msg then ([ECall c], XHttp 403 private_detail)
      else if contains UNAVAILABLE error_msg then ([ECall c], XHttp 404 unavailable_detail)
      else ([ECall c], XHttp 400 (VStr ("Error extracting video info: " ++ error_msg)))
  | UError _ => ([ECall c], XHttp 500 internal_video_error)
  end.

(** [fmt.get(k)] on a format object given as a JSON object. *)
Fixpoint obj_get (fs : list (string * val)) (k : string) (dflt : val) : val :=
  match fs with
  | [] => dflt
  | (k', v) :: rest => if String.eqb k k' then v else obj_get rest k dflt
  end.

Definition is_none_str (v : val) : bool :=
  match v with VStr s => String.eqb s "none" | _ => false end.

(** The dict [get_download_formats] appends for one kept format. *)
Definition format_entry (fs : list (string * val)) : val :=
  VObj [("format_id", obj_get fs "format_id" VNull);
        ("ext", obj_get fs "ext" VNull);
        ("quality", obj_get fs "quality" (VStr "N/A"));
        ("filesize", obj_get fs "filesize" VNull);
        ("vcodec", obj_get fs "vcodec" VNull);
        ("acodec", obj_get fs "acodec" VNull);
        ("fps", obj_get fs "fps" VNull);
        ("width", obj_get fs "width" VNull);
        ("height", obj_get fs "height" VNull);
        ("url", obj_get fs "url" VNull)].

(** [get_download_formats(info)]; [None] when it raises: when an element
    of [info['formats']] is not a dict ([fmt.get] raises AttributeError),
    or when [info['formats']] is not iterable ([None], a number: TypeError)
    or iterates over strings (the characters of a non-empty string, the
    keys of a non-empty dict: [fmt.get] raises again). *)
Definition get_download_formats (info : gmap string val) : option (list val) :=
  match info !! "formats" with
  | None => Some []
  | Some (VList fmts) =>
      fold_right (fun fmt acc =>
        match fmt, acc with
        | VObj fs, Some l =>
            if negb (is_none_str (obj_get fs "vcodec" VNull))
               || negb (is_none_str (obj_get fs "acodec" VNull)) then
              Some (format_entry fs :: l)
            else Some l
        | _, _ => None
        end) (Some []) fmts
  | Some (VStr EmptyString) | Some (VObj []) => Some []
  | Some _ => None
  end.

(* ------------------------------------------------------------------ *)
(** ** [/video/info] *)

(** [{"cached": True, **cached_info}]: the keys of [cached_info] win. *)
Definition cached_response (cached_info : gmap string val) : gmap string val :=
  cached_info ∪ {[ "cached" := VBool true ]}.

Definition video_info_of (url : string) (info : gmap string val) : gmap string val :=
  dict_of
    [("cached", VBool false);
     ("id", get info "id" (VStr "Unknown ID"));
     ("title", get info "title" (VStr "Unknown Title"));
     ("description", get info "description" VNull);
     ("duration", get info "duration" VNull);
     ("view_count", get info "view_count" VNull);
     ("like_count", get info "like_count" VNull);
     ("uploader", get info "uploader" VNull);
     ("upload_date", get info "upload_date" VNull);
     ("thumbnail", get info "thumbnail" VNull);
     ("tags", get info "tags" (VList []));
     ("categories", get info "categories" (VList []));
     ("age_limit", get info "age_limit" VNull);
     ("webpage_url", get info "webpage_url" (VStr url))].

Definition get_video_info_body (eng : engine) (k : nat) (url : string)
    (include_formats force_extract : bool) (st : server) : server * list event * response :=
  if negb (validate_youtube_url url) then (st, [], RHttp 400 (VStr "Invalid YouTube URL"))
  else
    let url := normalize_youtube_url url in
    let '(vc, cached_info) :=
      if force_extract then (video_cache st, None)
      else get_cached_video_info (video_cache st) (now st) url in
    let st := set_cache st vc in
    let extract :=
      let '(ev, r) := extract_video_info eng k url in
      match r with
      | XInfo info =>
          let st := set_cache st (cache_video_info (video_cache st) (now st) url info) in
          let video_info := video_info_of url info in
          if include_formats then
            match get_download_formats info with
            | Some fs => (st, ev, ROk (<["formats" := VList fs]> video_info))
            | None =>
                (st, ev, RHttp 500 (VStr "Internal server error while processing video information."))
            end
          else (st, ev, ROk video_info)
      | XHttp status detail => (st, ev, RHttp status detail)
      end in
    match cached_info with
    | Some ci => if dict_truthy ci then (st, [], ROk (cached_response ci)) else extract
    | None => extract
    end.

Definition info_kwargs (url include_formats force_extract : string) : gmap string string :=
  list_to_map [("url", url); ("include_formats", include_formats);
               ("force_extract", force_extract); ("request", "None")].

(** [GET /video/info]: [@rate_limit(calls_per_minute=30)]. *)
Definition get_video_info (eng : engine) (k : nat) (url : string)
    (include_formats force_extract : bool) (st : server) : server * list event * response :=
  rate_limit 30 (get_video_info_body eng k url include_formats force_extract)
    (info_kwargs url (bool_str include_formats) (bool_str force_extract)) st.

(* ------------------------------------------------------------------ *)
(** ** [/playlist/info] and [/playlist/download] *)

(** [str.lower()]; on code points below 256 only ASCII letters lower to
    ASCII, so the [in] check below is unaffected by the other ones. *)
Definition lower_char (c : ascii) : ascii :=
  let n := nat_of_ascii c in
  if (Nat.leb 65 n && Nat.leb n 90)%bool then ascii_of_nat (n + 32) else c.

Fixpoint lower (s : string) : string :=
  match s with
  | EmptyString => EmptyString
  | String c s' => String (lower_char c) (lower s')
  end.

Definition dq : string := String (ascii_of_nat 34) EmptyString.

(** [repr] of a string (strings holding both quote kinds or escapes
    are not rendered exactly). *)
Definition repr_str (s : string) : string :=
  if contains "'" s then dq ++ s ++ dq else "'" ++ s ++ "'".

Fixpoint py_repr (v : val) : string :=
  match v with
  | VNull => "None"
  | VBool b => bool_str b
  | VInt z => z_to_string z
  | VStr s => repr_str s
  | VList l =>
      "[" ++ (fix go (l : list val) : string :=
                match l with
                | [] => ""
                | [x] => py_repr x
                | x :: r => py_repr x ++ ", " ++ go r
                end) l ++ "]"
  | VObj fs =>
      "{" ++ (fix go (fs : list (string * val)) : string :=
                match fs with
                | [] => ""
                | [(k, x)] => repr_str k ++ ": " ++ py_repr x
                | (k, x) :: r => repr_str k ++ ": " ++ py_repr x ++ ", " ++ go r
                end) fs ++ "}"
  end.

(** [str(v)] *)
Definition py_str (v : val) : string :=
  match v with VStr s => s | _ => py_repr v end.

(** [str(e)] of an [HTTPException]: ["{status_code}: {detail}"]. *)
Definition exc_str (status : Z) (detail : val) : string :=
  z_to_string status ++ ": " ++ py_str detail.

Record playlist_info := {
  pl_fields : gmap string val;             (* id, title, description, uploader, video_count *)
  pl_videos : list (gmap string val)       (* "videos" *)
}.

(** The flat listing call of [get_playlist_info]. *)
Definition flat_call (url : string) : engine_call :=
  {| ec_url := url; ec_clients := []; ec_format := "extract_flat" |}.

(** The dict [get_playlist_info] appends for a truthy dict entry of the
    listing; [None] for the entries [if entry:] skips (and for the other
    values, on which [entry.get] raises). *)
Definition video_of_entry (e : val) : option (gmap string val) :=
  match e with
  | VObj fs =>
      if truthy e then
        Some (dict_of [("id", obj_get fs "id" VNull); ("title", obj_get fs "title" VNull);
                       ("url", obj_get fs "url" VNull); ("duration", obj_get fs "duration" VNull);
                       ("uploader", obj_get fs "uploader" VNull)])
      else None
  | _ => None
  end.

(** [type(v).__name__] *)
Definition py_type_name (v : val) : string :=
  match v with
  | VNull => "NoneType"
  | VBool _ => "bool"
  | VInt _ => "int"
  | VStr _ => "str"
  | VList _ => "list"
  | VObj _ => "dict"
  end.

(** [len(v)]; [None] when it raises TypeError.  The keys of a [VObj]
    are taken to be distinct. *)
Definition py_len (v : val) : option nat :=
  match v with
  | VStr s => Some (String.length s)
  | VList l => Some (List.length l)
  | VObj fs => Some (List.length fs)
  | _ => None
  end.

(** [for x in v:] over a value whose [len] succeeded: the characters of a
    string, the elements of a list, the keys of a dict. *)
Definition py_iter (v : val) : list val :=
  match v with
  | VStr s => map (fun c => VStr (String c EmptyString)) (list_ascii_of_string s)
  | VList l => l
  | VObj fs => map (fun kv => VStr (fst kv)) fs
  | _ => []
  end.

(** The loop [for entry in ...: if entry: videos.append({... entry.get ...})];
    [inr] carries the message of the AttributeError of the first truthy
    entry that is not a dict. *)
Fixpoint playlist_videos (es : list val) : list (gmap string val) + string :=
  match es with
  | [] => inl []
  | e :: rest =>
      if truthy e then
        match e with
        | VObj fs =>
            match playlist_videos rest with
            | inl vs =>
                inl (dict_of [("id", obj_get fs "id" VNull); ("title", obj_get fs "title" VNull);
                              ("url", obj_get fs "url" VNull);
                              ("duration", obj_get fs "duration" VNull);
                              ("uploader", obj_get fs "uploader" VNull)] :: vs)
            | inr m => inr m
            end
        | _ => inr ("'" ++ py_type_name e ++ "' object has no attribute 'get'")
        end
      else playlist_videos rest
  end.

Definition get_playlist_info (eng : engine) (k : nat) (url : string) (limit : nat)
    : list event * (playlist_info + (Z * val)) :=
  if negb (contains "playlist" (lower url)) then ([], inr (400%Z, VStr "Invalid playlist URL"))
  else
    let c := flat_call url in
    match eng k c with
    | UInfo info =>
        let entries := get info "entries" (VList []) in
        match py_len entries with
        | None =>
            ([ECall c], inr (500%Z, VStr ("Error getting playlist info: object of type '"
                                          ++ py_type_name entries ++ "' has no len()")))
        | Some n =>
            match playlist_videos (py_iter entries) with
            | inr m => ([ECall c], inr (500%Z, VStr ("Error getting playlist info: " ++ m)))
            | inl vids =>
                ([ECall c],
                 inl {| pl_fields := dict_of
                          [("id", get info "id" VNull); ("title", get info "title" VNull);
                           ("description", get info "description" VNull);
                           ("uploader", get info "uploader" VNull);
                           ("video_count", VInt (Z.of_nat n))];
                        pl_videos := vids |})
            end
        end
    | UNone =>
        ([ECall c], inr (500%Z, VStr ("Error getting playlist info: "
                                      ++ "'NoneType' object has no attribute 'get'")))
    | UDownloadError m | UError m =>
        ([ECall c], inr (500%Z, VStr ("Error getting playlist info: " ++ m)))
    end.

Inductive link :=
| LinkOk (video_info : gmap string val) (download_info : gmap string val)
| LinkErr (video_info : gmap string val) (error : string).

Definition link_video (l : link) : gmap string val :=
  match l with LinkOk v _ => v | LinkErr v _ => v end.

Inductive playlist_response :=
| PlOk (info : playlist_info) (download_links : list link) (total_processed : nat)
| PlErr (status : Z) (detail : val)
| PlStuck.

(** One member: [get_video_download_links(video_url, quality, format)]
    called positionally, so the wrapper sees no keyword arguments, and
    [force_extract] keeps its default [Query(False)], a truthy object. *)
Definition member_call (eng : engine) (fuel k : nat) (quality format : string)
    (video : gmap string val) (st : server) : server * list event * response :=
  let video_url := "https://www.youtube.com/watch?v=" ++ py_str (get video "id" VNull) in
  rate_limit 20 (get_video_download_links_body eng fuel k video_url quality format true) ∅ st.

(** The [for video in playlist_info["videos"][:limit]] loop; member
    [i] starts at time [clock i]. *)
Fixpoint playlist_loop (eng : engine) (fuel : nat) (clock : nat -> Q) (i k : nat)
    (quality format : string) (videos : list (gmap string val)) (st : server)
    : server * list event * option (list link) :=
  match videos with
  | [] => (st, [], Some [])
  | video :: rest =>
      let '(st1, ev1, r) := member_call eng fuel k quality format video (set_now st (clock i)) in
      let entry :=
        match r with
        | ROk download_info => Some (LinkOk video download_info)
        | RHttp status detail => Some (LinkErr video (exc_str status detail))
        | RRaise msg => Some (LinkErr video msg)
        | RStuck => None
        end in
      match entry with
      | None => (st1, ev1, None)
      | Some e =>
          let '(st2, ev2, links) :=
            playlist_loop eng fuel clock (S i) (k + ncalls ev1) quality format rest st1 in
          (st2, app ev1 ev2, option_map (cons e) links)
      end
  end.

(** [GET /playlist/download] (not rate limited itself). *)
Definition get_playlist_download_links (eng : engine) (fuel : nat) (clock : nat -> Q) (k : nat)
    (url quality format : string) (limit : nat) (st : server)
    : server * list event * playlist_response :=
  if negb (contains "playlist" (lower url)) then (st, [], PlErr 400 (VStr "Invalid playlist URL"))
  else
    match quality_option quality with
    | None => (st, [], PlErr 400 (VStr "Invalid quality option"))
    | Some _ =>
        let '(ev0, p) := get_playlist_info eng k url limit in
        match p with
        | inr (status, detail) =>
            (st, ev0, PlErr 500 (VStr ("Error getting playlist download links: "
                                       ++ exc_str status detail)))
        | inl pinfo =>
            let '(st', ev1, links) :=
              playlist_loop eng fuel clock 0 (k + ncalls ev0) quality format
                (firstn limit (pl_videos pinfo)) st in
            match links with
            | Some download_links =>
                (st', app ev0 ev1, PlOk pinfo download_links (List.length download_links))
            | None => (st', app ev0 ev1, PlStuck)
            end
        end
    end.

(* ------------------------------------------------------------------ *)
(** ** [/video/status] *)

(** The status probe: [extract_flat] with the android and web clients. *)
Definition status_call (url : string) : engine_call :=
  {| ec_url := url; ec_clients := ["android"; "web"]; ec_format := "extract_flat" |}.

Definition status_dict (accessible : bool) (status message : string) : gmap string val :=
  dict_of [("accessible", VBool accessible); ("status", VStr status); ("message", VStr message)].

(** [GET /video/status] (not rate limited, no cache).  The inner [try] of
    [check_status] catches [DownloadError] only; any other exception
    reaches the outer [except Exception]. *)
Definition check_video_status (eng : engine) (k : nat) (url : string) : list event * response :=
  if negb (validate_youtube_url url) then ([], RHttp 400 (VStr "Invalid YouTube URL"))
  else
    let url := normalize_youtube_url url in
    let c := status_call url in
    match eng k c with
    | UNone => ([ECall c], ROk (status_dict false "unavailable" "Video is not accessible"))
    | UInfo info =>
        ([ECall c], ROk (dict_of
           [("accessible", VBool true); ("status", VStr "available");
            ("message", VStr "Video is accessible");
            ("title", get info "title" (VStr "Unknown Title"));
            ("uploader", get info "uploader" VNull);
            ("duration", get info "duration" VNull)]))
    | UDownloadError error_msg =>
        ([ECall c], ROk
           (if contains SIGN_IN error_msg then
              status_dict false "restricted" "Video requires sign-in verification"
            else if contains PRIVATE error_msg then status_dict false "private" "Video is private"
            else if contains UNAVAILABLE error_msg then
              status_dict false "unavailable" "Video is unavailable or deleted"
            else status_dict false "error" ("Error accessing video: " ++ error_msg)))
    | UError _ =>
        ([ECall c], ROk (status_dict false "error"
                           "Internal server error while checking video status"))
    end.

(* ------------------------------------------------------------------ *)
(** ** [/video/fallback] *)

(** [s[len(p):]] for a prefix [p] of [s]. *)
Fixpoint drop_prefix (p s : string) : string :=
  match p, s with
  | String _ p', String _ s' => drop_prefix p' s'
  | _, _ => s
  end.

(** [s.replace(old, new)] for a non-empty [old]: every non-overlapping
    occurrence, left to right; [fuel] is [len(s)]. *)
Fixpoint replace_go (fuel : nat) (old new s : string) : string :=
  match fuel with
  | O => s
  | S f =>
      match s with
      | EmptyString => EmptyString
      | String c s' =>
          if prefixb old s then new ++ replace_go f old new (drop_prefix old s)
          else String c (replace_go f old new s')
      end
  end.

Definition str_replace (old new s : string) : string :=
  replace_go (String.length s) old new s.

(** [str(e)] of the [AttributeError] raised by [info.get] on [None]. *)
Definition none_get_error : string := "'NoneType' object has no attribute 'get'".

Definition fallback_failed (method : string) (err : string) : gmap string val :=
  dict_of [("method", VStr method); ("available", VBool false); ("error", VStr err)].

Definition try_embed_extraction (eng : engine) (k : nat) (url : string)
    : list event * gmap string val :=
  let c := {| ec_url := url; ec_clients := []; ec_format := "extract_flat" |} in
  match eng k c with
  | UInfo info =>
      ([ECall c], dict_of [("method", VStr "embed");
                           ("title", get info "title" (VStr "Unknown Title"));
                           ("id", get info "id" (VStr "Unknown ID"));
                           ("duration", get info "duration" VNull);
                           ("available", VBool true)])
  | UNone => ([ECall c], fallback_failed "embed" none_get_error)
  | UDownloadError e | UError e => ([ECall c], fallback_failed "embed" e)
  end.

(** [try_mobile_extraction] ([method = "mobile"]) and [try_basic_extraction]
    (any other method) differ in the client and the method name. *)
Definition try_client_extraction (method client : string) (eng : engine) (k : nat) (url : string)
    : list event * gmap string val :=
  let c := {| ec_url := url; ec_clients := [client]; ec_format := "" |} in
  match eng k c with
  | UInfo info =>
      ([ECall c], dict_of [("method", VStr method);
                           ("title", get info "title" (VStr "Unknown Title"));
                           ("id", get info "id" (VStr "Unknown ID"));
                           ("duration", get info "duration" VNull);
                           ("download_url", get info "url" VNull);
                           ("available", VBool true)])
  | UNone => ([ECall c], fallback_failed method none_get_error)
  | UDownloadError e | UError e => ([ECall c], fallback_failed method e)
  end.

Definition try_mobile_extraction := try_client_extraction "mobile" "ios".
Definition try_basic_extraction := try_client_extraction "basic" "android".

(** [GET /video/fallback] (not rate limited, no cache). *)
Definition get_video_fallback_info (eng : engine) (k : nat) (url method : string)
    : list event * response :=
  if negb (validate_youtube_url url) then ([], RHttp 400 (VStr "Invalid YouTube URL"))
  else
    let url := normalize_youtube_url url in
    if String.eqb method "embed" then
      let embed_url := str_replace "watch?v=" "embed/" url in
      let '(ev, d) := try_embed_extraction eng k embed_url in (ev, ROk d)
    else if String.eqb method "mobile" then
      let '(ev, d) := try_mobile_extraction eng k url in (ev, ROk d)
    else
      let '(ev, d) := try_basic_extraction eng k url in (ev, ROk d).

(* ------------------------------------------------------------------ *)
(** ** Concrete inputs *)

Definition WATCH : string := "https://www.youtube.com/watch?v=".
Definition RICK : string := "dQw4w9WgXcQ".
Definition EMBED : string := "https://www.youtube.com/embed/".

(** A fresh process: empty cache and rate-limit map, clock at 0. *)
Definition st0 : server := {| now := 0; video_cache := ∅; last_request_time := ∅ |}.

Definition playable_info : gmap string val :=
  dict_of [("id", VStr RICK); ("title", VStr "Never Gonna Give You Up");
           ("url", VStr "https://rr1.googlevideo.com/videoplayback?id=1")].

(** An extraction without a top-level [url] (merged video+audio formats). *)
Definition merged_info : gmap string val :=
  dict_of [("id", VStr RICK); ("title", VStr "Never Gonna Give You Up")].

Definition untitled_info : gmap string val := dict_of [("id", VStr RICK)].

Definition eng_ok : engine := fun _ _ => UInfo playable_info.
Definition eng_merged : engine := fun _ _ => UInfo merged_info.
Definition eng_untitled : engine := fun _ _ => UInfo untitled_info.

Definition SIGN_IN_ERR : string :=
  "ERROR: [youtube] dQw4w9WgXcQ: Sign in to confirm you're not a bot. Use --cookies-from-browser or --cookies for the authentication.".
Definition PRIVATE_ERR : string :=
  "ERROR: [youtube] dQw4w9WgXcQ: Private video. Sign in if you've been granted access to this video".

Definition eng_sign_in : engine := fun _ _ => UDownloadError SIGN_IN_ERR.
Definition eng_private : engine := fun _ _ => UDownloadError PRIVATE_ERR.

Definition profile_call (url fmt client : string) : engine_call :=
  {| ec_url := url; ec_clients := [client]; ec_format := fmt |}.

Definition download_fmt (qfmt format : string) : string :=
  if String.eqb format "mp3" then "bestaudio/best" else qfmt.

(** A YouTube video id: 11 characters of [A-Za-z0-9_-]. *)
Definition is_id_char (c : ascii) : bool :=
  let n := nat_of_ascii c in
  (Nat.leb 48 n && Nat.leb n 57) || (Nat.leb 65 n && Nat.leb n 90)
  || (Nat.leb 97 n && Nat.leb n 122) || Nat.eqb n 95 || Nat.eqb n 45.

Definition valid_video_id (id : string) : bool :=
  Nat.eqb (String.length id) 11 && forallb is_id_char (list_ascii_of_string id).

(** The beginnings [youtube_regex] accepts before its optional path:
    [(https?://)?(www\.)?(youtube|youtu|youtube-nocookie)\.(com|be)/]. *)
Definition url_prefixes : list string :=
  flat_map (fun sch =>
    flat_map (fun w =>
      flat_map (fun h =>
        map (fun tld => sch ++ w ++ h ++ "." ++ tld ++ "/") ["com"; "be"])
        ["youtube"; "youtu"; "youtube-nocookie"])
      [""; "www."])
    [""; "http://"; "https://"].

(** The literal alternatives of the optional path group. *)
Definition url_paths : list string := [""; "watch?v="; "embed/"; "v/"].

(** Eleven characters of the class [[^&=%\?]]. *)
Definition id_re_ok (id : string) : bool :=
  Nat.eqb (String.length id) 11
  && forallb (fun c => negb (existsb (Ascii.eqb c) ["&"; "="; "%"; "?"]%char))
             (list_ascii_of_string id).

Definition nsleeps (ev : list event) : nat :=
  List.length (List.filter (fun e => match e with ESleep _ => true | _ => false end) ev).

Definition is_hex_lower (c : ascii) : bool :=
  let n := nat_of_ascii c in (Nat.leb 48 n && Nat.leb n 57) || (Nat.leb 97 n && Nat.leb n 102).

(** The [j]-th method of [try_alternative_extraction]. *)
Definition alt_call (url : string) (j : nat) : engine_call :=
  {| ec_url := url; ec_clients := [nth j ["android"; "ios"; "web"] ""]; ec_format := "" |}.

(** The metadata fields of the [/video/info] response. *)
Definition metadata_keys : list string :=
  ["id"; "title"; "description"; "duration"; "view_count"; "like_count"; "uploader";
   "upload_date"; "thumbnail"; "tags"; "categories"; "age_limit"; "webpage_url"].

Definition allowed (a : admission) : bool :=
  match a with Allowed _ => true | Denied _ => false end.

(** A five-member playlist whose third member is a private video. *)
Definition PLAYLIST : string := "https://www.youtube.com/playlist?list=PL0".
Definition pl_entry (id : string) : val := VObj [("id", VStr id); ("title", VStr id)].
Definition MEMBER_IDS : list string :=
  ["aaaaaaaaaa1"; "aaaaaaaaaa2"; "aaaaaaaaaa3"; "aaaaaaaaaa4"; "aaaaaaaaaa5"].
Definition playlist_dict : gmap string val :=
  dict_of [("id", VStr "PL0"); ("entries", VList (map pl_entry MEMBER_IDS))].
Definition eng_playlist : engine := fun _ c =>
  if String.eqb (ec_format c) "extract_flat" then UInfo playlist_dict
  else if contains "aaaaaaaaaa3" (ec_url c) then UDownloadError PRIVATE_ERR
  else UInfo playable_info.
Definition clock10 (i : nat) : Q := inject_Z (10 * Z.of_nat i).

(** The test [fmt.get('vcodec') != 'none' or fmt.get('acodec') != 'none']
    of [get_download_formats] on one element of [info['formats']]. *)
Definition keeps_format (f : val) : bool :=
  match f with
  | VObj fs => negb (is_none_str (obj_get fs "vcodec" VNull))
               || negb (is_none_str (obj_get fs "acodec" VNull))
  | _ => false
  end.

Definition is_obj (v : val) : bool := match v with VObj _ => true | _ => false end.

(* ================================================================== *)
(** * Properties *)

Lemma Qltb_iff (x y : Q) : Qltb x y = true <-> (x < y)%Q.
Proof.
  unfold Qltb. destruct (Qle_bool y x) eqn:E; simpl.
  - apply Qle_bool_iff in E. split; [discriminate|]. intros H. exfalso.
    apply (Qlt_not_le x y H E).
  - split; [|reflexivity]. intros _. apply Qnot_le_lt. intros H.
    apply Qle_bool_iff in H. congruence.
Qed.

Lemma Qltb_false (x y : Q) : Qltb x y = false <-> ~ (x < y)%Q.
Proof.
  rewrite <- Qltb_iff. destruct (Qltb x y); split; congruence.
Qed.

(** ** Cache store *)

(** C4: [cache_video_info] stores the entry with expiry [now + 30 min];
    [get_cached_video_info] returns the stored info exactly when the entry
    is present and [now < expiry], and otherwise leaves the key absent
    (deleting a stale entry); after the TTL the lookup misses and the next
    store overwrites the entry. *)
Theorem cache_store_lookup_semantics :
  (forall vc t url info,
     cache_video_info vc t url info
     = <[get_cache_key url "" "" := {| c_info := info; c_expiry := (t + 1800)%Q |}]> vc)
  /\ (forall vc t url,
        let key := get_cache_key url "" "" in
        let '(vc', r) := get_cached_video_info vc t url in
        (forall info, r = Some info <->
           exists e, vc !! key = Some e /\ (t < c_expiry e)%Q /\ c_info e = info)
        /\ (r = None -> vc' = delete key vc)
        /\ (r <> None -> vc' = vc))
  /\ (forall vc t0 t url info info',
        let key := get_cache_key url "" "" in
        let '(vc', r) := get_cached_video_info (cache_video_info vc t0 url info) t url in
        (r = Some info <-> (t < t0 + 1800)%Q)
        /\ (r = None <-> (t0 + 1800 <= t)%Q)
        /\ (r = None -> vc' !! key = None
                /\ cache_video_info vc' t url info' !! key
                   = Some {| c_info := info'; c_expiry := (t + 1800)%Q |})).
Proof.
  split; [reflexivity|]. split.
  - intros vc t url. unfold get_cached_video_info. cbv zeta.
    destruct (vc !! get_cache_key url "" "") as [e|] eqn:He.
    + destruct (Qltb t (c_expiry e)) eqn:Hlt.
      * apply Qltb_iff in Hlt. split; [|split; [discriminate|reflexivity]].
        intros info. split.
        -- intros [= <-]. exists e. auto.
        -- intros (e' & [= <-] & _ & <-). reflexivity.
      * apply Qltb_false in Hlt. split; [|split; [reflexivity|congruence]].
        intros info. split; [discriminate|].
        intros (e' & [= <-] & Hl & _). contradiction.
    + split; [|split; [intros _; symmetry; by apply delete_id|reflexivity]].
      intros info. split; [discriminate|]. intros (e' & ? & _). discriminate.
  - intros vc t0 t url info info'. unfold get_cached_video_info, cache_video_info,
      cache_video_info_m. cbv zeta. rewrite lookup_insert_eq. simpl.
    destruct (Qltb t (t0 + inject_Z (30 * 60))) eqn:Hlt.
    + apply Qltb_iff in Hlt. split; [tauto|]. split; [|discriminate].
      split; [discriminate|]. intros H. exfalso.
      apply (Qlt_not_le t (t0 + inject_Z (30 * 60))); assumption.
    + apply Qltb_false in Hlt. split; [split; [discriminate|tauto]|].
      split; [split; [intros _; apply Qnot_lt_le; exact Hlt|reflexivity]|].
      intros _. split; [apply lookup_delete_eq|apply lookup_insert_eq].
Qed.

(** ** Rate limiter *)

Lemma download_extract_lrt eng fuel k url quality qfmt format st :
  last_request_time (download_extract eng fuel k url quality qfmt format st).1.1
  = last_request_time st.
Proof.
  unfold download_extract.
  destruct (get_download_info_enhanced _ _ _ _ _ _ _) as [[ev vc] r].
  destruct r; [destruct (negb _)|..]; reflexivity.
Qed.

Lemma download_body_lrt eng fuel k url quality format force st :
  last_request_time (get_video_download_links_body eng fuel k url quality format force st).1.1
  = last_request_time st.
Proof.
  unfold get_video_download_links_body.
  destruct (validate_youtube_url url); [|reflexivity]. simpl.
  destruct (quality_option quality) as [qfmt|]; [|reflexivity].
  destruct (if force then _ else _) as [vc [ci|]];
    [destruct (dict_truthy ci)|]; try reflexivity;
    rewrite download_extract_lrt; reflexivity.
Qed.

Lemma info_body_lrt eng k url inc force st :
  last_request_time (get_video_info_body eng k url inc force st).1.1 = last_request_time st.
Proof.
  unfold get_video_info_body.
  destruct (validate_youtube_url url); [|reflexivity]. simpl.
  destruct (if force then _ else _) as [vc ci].
  destruct (extract_video_info eng k (normalize_youtube_url url)) as [ev [info|s d]];
    destruct ci as [ci|]; try destruct (dict_truthy ci); try reflexivity;
    destruct inc; try destruct (get_download_formats info); reflexivity.
Qed.

(** What the wrapper does to [last_request_time]. *)
Lemma rate_limit_lrt cpm func kwargs st :
  (forall st', last_request_time (func st').1.1 = last_request_time st') ->
  last_request_time (rate_limit cpm func kwargs st).1.1 = last_request_time st
  \/ last_request_time (rate_limit cpm func kwargs st).1.1
     = <[client_ip_of kwargs := now st]> (last_request_time st).
Proof.
  intros Hf. unfold rate_limit, admission_check.
  destruct (last_request_time st !! client_ip_of kwargs) as [last|].
  - destruct (Qltb _ _); [left; reflexivity|right; rewrite Hf; reflexivity].
  - right. rewrite Hf. reflexivity.
Qed.

Lemma admission_denied_or_allowed cpm func kwargs st :
  rate_limit cpm func kwargs st
  = match admission_check cpm (last_request_time st) (client_ip_of kwargs) (now st) with
    | Denied w => (st, [], RHttp 429 (VStr (rate_limit_detail w)))
    | Allowed l => func (set_lrt st l)
    end.
Proof. reflexivity. Qed.

Lemma info_kwargs_ip url inc force : client_ip_of (info_kwargs url inc force) = "unknown".
Proof. reflexivity. Qed.

Lemma download_kwargs_ip url q f force : client_ip_of (download_kwargs url q f force) = "unknown".
Proof. reflexivity. Qed.

(** C5: with a recorded last-accepted time, a call is denied exactly when
    the elapsed time is below [60 / calls_per_minute]; the denial is a 429
    carrying [interval - elapsed] and leaves the state unchanged; an
    allowed call records the current time.  [/video/info] uses 30 calls
    per minute (2 s), [/video/download] 20 (3 s). *)
Theorem rate_limiter_admission (calls_per_minute : Z) (lrt : gmap string Q)
    (client_ip : string) (last t : Q) :
  lrt !! client_ip = Some last ->
  let interval := (inject_Z 60 / inject_Z calls_per_minute)%Q in
  ((t - last < interval)%Q ->
     admission_check calls_per_minute lrt client_ip t = Denied (interval - (t - last))%Q
     /\ forall func kwargs st, client_ip_of kwargs = client_ip ->
          last_request_time st = lrt -> now st = t ->
          rate_limit calls_per_minute func kwargs st
          = (st, [], RHttp 429 (VStr (rate_limit_detail (interval - (t - last))%Q))))
  /\ (~ (t - last < interval)%Q ->
     admission_check calls_per_minute lrt client_ip t = Allowed (<[client_ip := t]> lrt)
     /\ forall func kwargs st, client_ip_of kwargs = client_ip ->
          last_request_time st = lrt -> now st = t ->
          rate_limit calls_per_minute func kwargs st
          = func (set_lrt st (<[client_ip := t]> lrt)))
  /\ (inject_Z 60 / inject_Z 30 == 2)%Q
  /\ (inject_Z 60 / inject_Z 20 == 3)%Q
  /\ (forall eng k url inc force st,
        let '(st', ev, r) := get_video_info eng k url inc force st in
        match admission_check 30 (last_request_time st) "unknown" (now st) with
        | Denied w => st' = st /\ ev = [] /\ r = RHttp 429 (VStr (rate_limit_detail w))
        | Allowed l => last_request_time st' = l
        end)
  /\ (forall eng fuel k url quality format force st,
        let '(st', ev, r) := get_video_download_links eng fuel k url quality format force st in
        match admission_check 20 (last_request_time st) "unknown" (now st) with
        | Denied w => st' = st /\ ev = [] /\ r = RHttp 429 (VStr (rate_limit_detail w))
        | Allowed l => last_request_time st' = l
        end).
Proof.
  intros Hlast interval.
  assert (Hadm : admission_check calls_per_minute lrt client_ip t
                 = if Qltb (t - last) interval then Denied (interval - (t - last))%Q
                   else Allowed (<[client_ip := t]> lrt)).
  { unfold admission_check. rewrite Hlast. reflexivity. }
  split; [|split; [|split; [|split; [|split]]]].
  - intros Hlt. apply Qltb_iff in Hlt. rewrite Hlt in Hadm. split; [exact Hadm|].
    intros func kwargs st Hip Hl Ht. rewrite admission_denied_or_allowed, Hip, Hl, Ht, Hadm.
    reflexivity.
  - intros Hlt. apply Qltb_false in Hlt. rewrite Hlt in Hadm. split; [exact Hadm|].
    intros func kwargs st Hip Hl Ht. rewrite admission_denied_or_allowed, Hip, Hl, Ht, Hadm.
    reflexivity.
  - reflexivity.
  - reflexivity.
  - intros eng k url inc force st. unfold get_video_info.
    rewrite admission_denied_or_allowed, info_kwargs_ip.
    destruct (admission_check 30 _ _ _) as [l|w].
    + pose proof (info_body_lrt eng k url inc force (set_lrt st l)) as H.
      destruct (get_video_info_body _ _ _ _ _ _) as [[st' ev] r]. exact H.
    + auto.
  - intros eng fuel k url quality format force st. unfold get_video_download_links.
    rewrite admission_denied_or_allowed, download_kwargs_ip.
    destruct (admission_check 20 _ _ _) as [l|w].
    + pose proof (download_body_lrt eng fuel k url quality format force (set_lrt st l)) as H.
      destruct (get_video_download_links_body _ _ _ _ _ _ _ _) as [[st' ev] r]. exact H.
    + auto.
Qed.

(** The spec's example: two calls 0.5 s apart at a 2 s interval. *)
Lemma rate_limiter_admission_witness :
  admission_check 30 ∅ "unknown" 0 = Allowed {[ "unknown" := 0%Q ]}
  /\ admission_check 30 {[ "unknown" := 0%Q ]} "unknown" (1 # 2)
     = Denied ((inject_Z 60 / inject_Z 30) - ((1 # 2) - 0))%Q
  /\ fmt1 ((inject_Z 60 / inject_Z 30) - ((1 # 2) - 0))%Q = "1.5".
Proof.
  split; [reflexivity|]. split; [|vm_compute; reflexivity].
  refine (proj1 (proj1 (rate_limiter_admission 30 {[ "unknown" := 0%Q ]} "unknown" 0 (1 # 2)
                          (lookup_singleton_eq _ _)) _)).
  vm_compute. reflexivity.
Defined.

Lemma member_call_lrt eng fuel k quality format video st :
  last_request_time (member_call eng fuel k quality format video st).1.1 = last_request_time st
  \/ last_request_time (member_call eng fuel k quality format video st).1.1
     = <[ "unknown" := now st ]> (last_request_time st).
Proof.
  unfold member_call.
  exact (rate_limit_lrt 20 _ ∅ st (fun st' => download_body_lrt _ _ _ _ _ _ _ st')).
Qed.

Lemma playlist_loop_lrt_dom eng fuel clock i k quality format videos st :
  dom (last_request_time (playlist_loop eng fuel clock i k quality format videos st).1.1)
  ⊆ dom (last_request_time st) ∪ {[ "unknown" ]}.
Proof.
  revert i k st. induction videos as [|video rest IH]; intros i k st; simpl; [set_solver|].
  pose proof (member_call_lrt eng fuel k quality format video (set_now st (clock i))) as Hm.
  destruct (member_call _ _ _ _ _ _ _) as [[st1 ev1] r]. simpl in Hm.
  assert (Hst1 : dom (last_request_time st1) ⊆ dom (last_request_time st) ∪ {[ "unknown" ]}).
  { destruct Hm as [-> | ->]; simpl; [set_solver|]. rewrite dom_insert_L. set_solver. }
  destruct r; simpl; try set_solver;
    (specialize (IH (S i) (k + ncalls ev1) st1);
     destruct (playlist_loop _ _ _ _ _ _ _ _ _) as [[st2 ev2] links]; simpl in *; set_solver).
Qed.

(** C10: the rate-limited endpoints never pass a [client_ip] keyword, so
    the wrapper always uses the key ["unknown"] (also for the positional
    calls made by [/playlist/download]); [last_request_time] gains no key
    but ["unknown"] from these endpoints. *)
Theorem rate_limit_key_unknown :
  (forall url inc force, client_ip_of (info_kwargs url inc force) = "unknown")
  /\ (forall url quality format force,
        client_ip_of (download_kwargs url quality format force) = "unknown")
  /\ client_ip_of ∅ = "unknown"
  /\ (forall eng k url inc force st,
        dom (last_request_time (get_video_info eng k url inc force st).1.1)
        ⊆ dom (last_request_time st) ∪ {[ "unknown" ]})
  /\ (forall eng fuel k url quality format force st,
        dom (last_request_time
               (get_video_download_links eng fuel k url quality format force st).1.1)
        ⊆ dom (last_request_time st) ∪ {[ "unknown" ]})
  /\ (forall eng fuel clock k url quality format limit st,
        dom (last_request_time
               (get_playlist_download_links eng fuel clock k url quality format limit st).1.1)
        ⊆ dom (last_request_time st) ∪ {[ "unknown" ]}).
Proof.
  split; [exact info_kwargs_ip|]. split; [exact download_kwargs_ip|].
  split; [reflexivity|]. split; [|split].
  - intros eng k url inc force st. unfold get_video_info.
    destruct (rate_limit_lrt 30 (get_video_info_body eng k url inc force)
                (info_kwargs url (bool_str inc) (bool_str force)) st
                (info_body_lrt eng k url inc force)) as [-> | ->];
      [set_solver|]. rewrite info_kwargs_ip, dom_insert_L. set_solver.
  - intros eng fuel k url quality format force st. unfold get_video_download_links.
    destruct (rate_limit_lrt 20 (get_video_download_links_body eng fuel k url quality format force)
                (download_kwargs url quality format (bool_str force)) st
                (download_body_lrt eng fuel k url quality format force)) as [-> | ->];
      [set_solver|]. rewrite download_kwargs_ip, dom_insert_L. set_solver.
  - intros eng fuel clock k url quality format limit st. unfold get_playlist_download_links.
    destruct (negb _); [simpl; set_solver|].
    destruct (quality_option quality); [|simpl; set_solver].
    destruct (get_playlist_info eng k url limit) as [ev0 [pinfo|[status detail]]];
      [|simpl; set_solver].
    pose proof (playlist_loop_lrt_dom eng fuel clock 0 (k + ncalls ev0) quality format
                  (firstn limit (pl_videos pinfo)) st) as H.
    destruct (playlist_loop _ _ _ _ _ _ _ _ _) as [[st' ev1] [links|]]; exact H.
Qed.

(** ** The retry loop of [/video/download] *)

Ltac ns_lia := unfold nsleeps, max_attempts in *; cbn [List.filter List.length] in *; lia.

Lemma set_cache_same st : set_cache st (video_cache st) = st.
Proof. destruct st; reflexivity. Qed.

(** C2: when every engine call reports the sign-in/bot check, the loop
    makes exactly 3 calls, with the profiles android, ios, web
    ([clients[i % 4]]), sleeping 1 s between them, and the endpoint fails
    with 403 and the detail pointing to [/video/fallback]. *)
Theorem sign_in_rotation_bound (eng : engine) (fuel k : nat)
    (url quality qfmt format : string) (st : server) :
  (3 <= fuel)%nat ->
  (forall j c, exists m, eng j c = UDownloadError m /\ contains SIGN_IN m = true) ->
  let call := profile_call url (download_fmt qfmt format) in
  download_extract eng fuel k url quality qfmt format st
  = (st, [ECall (call "android"); ESleep 1; ECall (call "ios"); ESleep 1; ECall (call "web")],
     RHttp 403 sign_in_detail).
Proof.
  intros Hfuel Hall call.
  destruct fuel as [|[|[|fuel]]]; try lia.
  destruct (Hall k (call "android")) as (m0 & E0 & S0).
  destruct (Hall (S k) (call "ios")) as (m1 & E1 & S1).
  destruct (Hall (S (S k)) (call "web")) as (m2 & E2 & S2).
  unfold download_extract, get_download_info_enhanced. simpl.
  unfold call, profile_call, download_fmt in *.
  rewrite E0. simpl. rewrite E1. simpl. rewrite E2. simpl.
  unfold classify_final. rewrite S2. simpl. rewrite set_cache_same. reflexivity.
Qed.

Lemma sign_in_rotation_bound_witness :
  (3 <= 5)%nat
  /\ (forall j c, exists m, eng_sign_in j c = UDownloadError m /\ contains SIGN_IN m = true)
  /\ download_extract eng_sign_in 5 0 (WATCH ++ RICK) "high" "best[height<=720]" "mp4" st0
     = (st0, [ECall (profile_call (WATCH ++ RICK) "best[height<=720]" "android"); ESleep 1;
              ECall (profile_call (WATCH ++ RICK) "best[height<=720]" "ios"); ESleep 1;
              ECall (profile_call (WATCH ++ RICK) "best[height<=720]" "web")],
        RHttp 403 sign_in_detail).
Proof.
  assert (Hall : forall j c, exists m, eng_sign_in j c = UDownloadError m
                                      /\ contains SIGN_IN m = true).
  { intros j c. exists SIGN_IN_ERR. split; [reflexivity|vm_compute; reflexivity]. }
  split; [lia|]. split; [exact Hall|].
  exact (sign_in_rotation_bound eng_sign_in 5 0 (WATCH ++ RICK) "high" "best[height<=720]"
           "mp4" st0 ltac:(lia) Hall).
Defined.






(** ** Input validation of [/video/download] *)


Lemma dict_of_lookup_go (l : list (string * val)) (m : gmap string val) (k : string) :
  fold_left (fun m kv => <[fst kv := snd kv]> m) l m !! k
  = fold_left (fun acc kv => if String.eqb (fst kv) k then Some (snd kv) else acc) l (m !! k).
Proof.
  revert m. induction l as [|[k' v] l IH]; intros m; simpl; [reflexivity|].
  rewrite IH. f_equal. rewrite lookup_insert.
  destruct (decide (k' = k)) as [->|Hne].
  - rewrite String.eqb_refl. reflexivity.
  - apply String.eqb_neq in Hne. rewrite Hne. reflexivity.
Qed.






(** ** Download URL check *)

(** C6 (defect): the cache-hit path of [/video/download] returns the cached
    info's [url] without the [download_url] check of the extraction path.
    A [/video/info] call caches an extraction without top-level [url];
    a [/video/download] call 5 s later answers 200 with [download_url]
    [None], while the same request with [force_extract] fails with 503. *)
Lemma cached_download_null_url :
  (let '(st1, ev1, r1) := get_video_info eng_merged 0 (WATCH ++ RICK) false false st0 in
   let '(_, ev2, r2) := get_video_download_links eng_merged 10 (ncalls ev1) (WATCH ++ RICK)
                          "high" "mp4" false (set_now st1 5) in
   (ncalls ev2,
    match r2 with ROk b => b !! "download_url" | _ => None end,
    match r2 with ROk b => b !! "cached" | _ => None end))
  = (0%nat, Some VNull, Some (VBool true))
  /\ (let '(_, _, r) := get_video_download_links eng_merged 10 0 (WATCH ++ RICK) "high" "mp4"
                          true st0 in r) = RHttp 503 no_download_url_detail.
Proof. split; vm_compute; reflexivity. Qed.

(** ** URL normalisation *)

Lemma prefixb_chars p s :
  prefixb p s = true ->
  forall ch, In ch (list_ascii_of_string p) -> In ch (list_ascii_of_string s).
Proof.
  revert s. induction p as [|a p IH]; intros s H ch Hin; [destruct Hin|].
  destruct s as [|b s]; [discriminate|].
  simpl in H. apply andb_prop in H as [Hab Hps]. apply Ascii.eqb_eq in Hab. subst b.
  destruct Hin as [<-|Hin]; [left; reflexivity|right; exact (IH s Hps ch Hin)].
Qed.

Lemma contains_chars p s :
  contains p s = true ->
  forall ch, In ch (list_ascii_of_string p) -> In ch (list_ascii_of_string s).
Proof.
  induction s as [|c s IH]; intros H ch Hin; simpl in H.
  - rewrite orb_false_r in H. exact (prefixb_chars _ _ H ch Hin).
  - apply orb_prop in H as [H|H].
    + exact (prefixb_chars _ _ H ch Hin).
    + right. exact (IH H ch Hin).
Qed.

Lemma contains_app_r p a s : contains p s = true -> contains p (a ++ s) = true.
Proof.
  induction a as [|c a IH]; intros H; [exact H|].
  simpl. rewrite (IH H). apply orb_true_r.
Qed.

Lemma split_single c s :
  (forall x, In x (list_ascii_of_string s) -> x <> c) -> split c s = [s].
Proof.
  induction s as [|a s IH]; intros H; [reflexivity|]. simpl.
  rewrite IH by (intros x Hx; apply H; right; exact Hx).
  destruct (Ascii.eqb a c) eqn:E; [|reflexivity].
  apply Ascii.eqb_eq in E. exfalso. apply (H a); [left; reflexivity|exact E].
Qed.

Lemma split_app_nosep c a b :
  (forall x, In x (list_ascii_of_string a) -> x <> c) ->
  split c (a ++ String c b) = a :: split c b.
Proof.
  induction a as [|y a IH]; intros H; simpl.
  - rewrite Ascii.eqb_refl. reflexivity.
  - rewrite IH by (intros x Hx; apply H; right; exact Hx).
    destruct (Ascii.eqb y c) eqn:E; [|reflexivity].
    apply Ascii.eqb_eq in E. exfalso. apply (H y); [left; reflexivity|exact E].
Qed.

Lemma split_app_sep c a b :
  exists h t, split c (a ++ String c b) = h :: app t (split c b).
Proof.
  induction a as [|y a IH]; simpl.
  - rewrite Ascii.eqb_refl. exists EmptyString, []. reflexivity.
  - destruct IH as (h & t & IH). rewrite IH.
    destruct (Ascii.eqb y c); [exists EmptyString, (h :: t)|exists (String y h), t];
      reflexivity.
Qed.

Lemma last_of_app (l m : list string) : m <> [] -> last_of (app l m) = last_of m.
Proof.
  unfold last_of. intros Hm. induction l as [|x l IH]; [reflexivity|].
  rewrite <- app_comm_cons. simpl. rewrite <- IH.
  destruct (app l m) eqn:E; [|reflexivity].
  apply app_eq_nil in E as [_ E]. contradiction.
Qed.

Lemma id_chars_no id :
  forallb is_id_char (list_ascii_of_string id) = true ->
  forall x, In x (list_ascii_of_string id) -> x <> "/"%char /\ x <> "?"%char /\ x <> "."%char.
Proof.
  intros H x Hx. rewrite forallb_forall in H. specialize (H x Hx).
  repeat split; intros ->; vm_compute in H; discriminate.
Qed.

Lemma id_no_youtu_be id :
  forallb is_id_char (list_ascii_of_string id) = true -> contains "youtu.be" id = false.
Proof.
  intros H. destruct (contains "youtu.be" id) eqn:E; [|reflexivity].
  exfalso. pose proof (contains_chars _ _ E "."%char ltac:(simpl; tauto)) as Hin.
  exact (proj2 (proj2 (id_chars_no id H _ Hin)) eq_refl).
Qed.

Lemma append_String x a b : String x a ++ b = String x (a ++ b).
Proof. reflexivity. Qed.

Lemma chars_app a b :
  list_ascii_of_string (a ++ b) = app (list_ascii_of_string a) (list_ascii_of_string b).
Proof.
  induction a as [|x a IH]; [reflexivity|].
  rewrite append_String. simpl. rewrite IH. reflexivity.
Qed.

Lemma youtu_be_split pre rest :
  (forall x, In x (list_ascii_of_string rest) -> x <> "/"%char) ->
  last_of (split "/" (pre ++ "youtu.be/" ++ rest)) = rest.
Proof.
  intros Hr.
  assert (E : pre ++ "youtu.be/" ++ rest = (pre ++ "youtu.be") ++ String "/" rest).
  { induction pre as [|x pre IH]; [reflexivity|].
    rewrite (append_String x pre ("youtu.be/" ++ rest)), (append_String x pre "youtu.be"),
      (append_String x (pre ++ "youtu.be") (String "/" rest)), IH.
    reflexivity. }
  rewrite E.
  destruct (split_app_sep "/" (pre ++ "youtu.be") rest) as (h & t & ->).
  rewrite app_comm_cons, last_of_app by (rewrite split_single; [discriminate|exact Hr]).
  rewrite split_single by exact Hr. reflexivity.
Qed.

Lemma watch_no_youtu_be id :
  forallb is_id_char (list_ascii_of_string id) = true ->
  contains "youtu.be" (WATCH ++ id) = false.
Proof.
  intros H. unfold WATCH. rewrite !append_String. cbn.
  apply id_no_youtu_be. exact H.
Qed.

(** C7 (as the code does it): only URLs containing "youtu.be" are
    rewritten: a youtu.be link, with or without a query, normalises to the
    watch URL of its id, which is itself left unchanged; every URL without
    "youtu.be" (embed/ links, other watch spellings) is returned as is. *)
Theorem normalize_youtu_be_only :
  (forall pre id q, valid_video_id id = true ->
     (forall x, In x (list_ascii_of_string q) -> x <> "/"%char) ->
     normalize_youtube_url (pre ++ "youtu.be/" ++ id) = WATCH ++ id
     /\ normalize_youtube_url (pre ++ "youtu.be/" ++ id ++ "?" ++ q) = WATCH ++ id)
  /\ (forall id, valid_video_id id = true -> normalize_youtube_url (WATCH ++ id) = WATCH ++ id)
  /\ (forall url, contains "youtu.be" url = false -> normalize_youtube_url url = url).
Proof.
  assert (Hyb : forall pre rest, contains "youtu.be" (pre ++ "youtu.be/" ++ rest) = true).
  { intros pre rest. apply contains_app_r. reflexivity. }
  split; [|split].
  - intros pre id q Hid Hq. apply andb_prop in Hid as [_ Hid].
    pose proof (id_chars_no id Hid) as Hc.
    unfold normalize_youtube_url. rewrite !Hyb. split.
    + rewrite youtu_be_split by (intros x Hx; apply (Hc x Hx)).
      unfold first_of. rewrite split_single by (intros x Hx; apply (Hc x Hx)). reflexivity.
    + rewrite youtu_be_split.
      * unfold first_of. change ("?" ++ q) with (String "?" q).
        rewrite split_app_nosep by (intros x Hx; apply (Hc x Hx)). reflexivity.
      * intros x Hx. rewrite chars_app in Hx. apply in_app_or in Hx as [Hx|Hx].
        -- apply (Hc x Hx).
        -- destruct Hx as [<-|Hx]; [discriminate|exact (Hq x Hx)].
  - intros id Hid. apply andb_prop in Hid as [_ Hid].
    unfold normalize_youtube_url. rewrite (watch_no_youtu_be id Hid).
    destruct (_ && _); reflexivity.
  - intros url H. unfold normalize_youtube_url. rewrite H.
    destruct (_ && _); reflexivity.
Qed.

Lemma normalize_youtu_be_only_witness :
  valid_video_id RICK = true
  /\ normalize_youtube_url ("https://" ++ "youtu.be/" ++ RICK) = WATCH ++ RICK
  /\ normalize_youtube_url ("https://" ++ "youtu.be/" ++ RICK ++ "?" ++ "si=abc") = WATCH ++ RICK
  /\ normalize_youtube_url (WATCH ++ RICK) = WATCH ++ RICK.
Proof.
  assert (Hv : valid_video_id RICK = true) by (vm_compute; reflexivity).
  assert (Hq : forall x, In x (list_ascii_of_string "si=abc") -> x <> "/"%char).
  { simpl. intros x Hx. repeat destruct Hx as [<-|Hx]; try discriminate. destruct Hx. }
  split; [exact Hv|].
  destruct (proj1 normalize_youtu_be_only "https://" RICK "si=abc" Hv Hq) as [H1 H2].
  split; [exact H1|]. split; [exact H2|].
  exact (proj1 (proj2 normalize_youtu_be_only) RICK Hv).
Defined.

(** C7 refuted: an embed/ link and the watch link of the same id are both
    accepted but normalise to different URLs, hence different cache keys. *)
Lemma embed_link_not_normalized :
  validate_youtube_url (EMBED ++ RICK) = true
  /\ validate_youtube_url (WATCH ++ RICK) = true
  /\ normalize_youtube_url (EMBED ++ RICK) = EMBED ++ RICK
  /\ String.eqb (normalize_youtube_url (EMBED ++ RICK)) (normalize_youtube_url (WATCH ++ RICK))
     = false
  /\ String.eqb (get_cache_key (normalize_youtube_url (EMBED ++ RICK)) "" "")
                (get_cache_key (normalize_youtube_url (WATCH ++ RICK)) "" "") = false.
Proof. repeat split; vm_compute; reflexivity. Qed.

(** ** The [/video/info] cache hit *)

Lemma admission_check_allowed cpm lrt ip t l :
  admission_check cpm lrt ip t = Allowed l -> l = <[ip := t]> lrt.
Proof.
  unfold admission_check. destruct (lrt !! ip); [destruct (Qltb _ _)|]; congruence.
Qed.

Lemma video_info_of_key url info key v :
  In key metadata_keys -> info !! key = Some v -> video_info_of url info !! key = Some v.
Proof.
  intros Hin Hk. unfold video_info_of, dict_of. rewrite dict_of_lookup_go.
  simpl in Hin. repeat destruct Hin as [<-|Hin]; try destruct Hin;
    cbn; unfold get; rewrite Hk; reflexivity.
Qed.

(** A first [/video/info] call that misses the
    cache and extracts a non-empty info dict stores it; a second call for
    the same URL without [force_extract], at least 2 s later (the interval
    of the shared rate limiter) and before the 30-minute expiry, makes no
    engine call and answers the raw stored dict under [{"cached": True}],
    whatever [include_formats] is.  Every metadata field the extraction
    provided has the same value in both answers. *)
Theorem info_cache_hit (eng : engine) (k k' : nat) (url : string) (inc2 : bool)
    (st : server) (ev1 : list event) (info : gmap string val) (t2 : Q) :
  validate_youtube_url url = true ->
  allowed (admission_check 30 (last_request_time st) "unknown" (now st)) = true ->
  (get_cached_video_info (video_cache st) (now st) (normalize_youtube_url url)).2 = None ->
  extract_video_info eng k (normalize_youtube_url url) = (ev1, XInfo info) ->
  info <> ∅ ->
  (now st + 2 <= t2)%Q -> (t2 < now st + 1800)%Q ->
  let '(st1, evA, rA) := get_video_info eng k url false false st in
  let '(_, evB, rB) := get_video_info eng k' url inc2 false (set_now st1 t2) in
  evA = ev1 /\ rA = ROk (video_info_of (normalize_youtube_url url) info)
  /\ evB = [] /\ rB = ROk (cached_response info)
  /\ (info !! "cached" = None -> cached_response info !! "cached" = Some (VBool true))
  /\ (forall key v, In key metadata_keys -> info !! key = Some v ->
        video_info_of (normalize_youtube_url url) info !! key = Some v
        /\ cached_response info !! key = Some v).
Proof.
  intros Hval Hadm Hmiss Hext Hne Hle Hlt.
  set (u := normalize_youtube_url url) in *.
  unfold get_video_info. rewrite admission_denied_or_allowed, info_kwargs_ip.
  destruct (admission_check 30 _ _ _) as [l|w] eqn:Ha; [|discriminate].
  apply admission_check_allowed in Ha. subst l.
  unfold get_video_info_body at 1. rewrite Hval. cbn [negb].
  fold u. cbn [set_cache set_lrt set_now last_request_time now video_cache].
  destruct (get_cached_video_info (video_cache st) (now st) u) as [vc c] eqn:Hc.
  cbn in Hmiss. subst c. rewrite Hext. cbn [set_cache set_lrt set_now last_request_time now video_cache].
  rewrite admission_denied_or_allowed, info_kwargs_ip. cbn [set_cache set_lrt set_now last_request_time now video_cache].
  assert (Hint : admission_check 30 (<["unknown" := now st]> (last_request_time st)) "unknown" t2
                 = Allowed (<["unknown" := t2]> (<["unknown" := now st]> (last_request_time st)))).
  { unfold admission_check. rewrite lookup_insert_eq.
    assert (Hfalse : Qltb (t2 - now st) (inject_Z 60 / inject_Z 30) = false).
    { apply Qltb_false. intros H.
      assert (E : (inject_Z 60 / inject_Z 30 == 2)%Q) by reflexivity.
      rewrite E in H. lra. }
    rewrite Hfalse. reflexivity. }
  rewrite Hint. unfold get_video_info_body. rewrite Hval. cbn [negb]. fold u.
  cbn [set_cache set_lrt set_now last_request_time now video_cache].
  assert (Hhit : get_cached_video_info (cache_video_info vc (now st) u info) t2 u
                 = (cache_video_info vc (now st) u info, Some info)).
  { unfold get_cached_video_info, cache_video_info, cache_video_info_m. cbv zeta.
    rewrite lookup_insert_eq. cbn [c_expiry c_info].
    assert (Hq : Qltb t2 (now st + inject_Z (30 * 60)) = true).
    { apply Qltb_iff. assert (E : (inject_Z (30 * 60) == 1800)%Q) by reflexivity.
      rewrite E. exact Hlt. }
    rewrite Hq. reflexivity. }
  rewrite Hhit.
  assert (Ht : dict_truthy info = true).
  { unfold dict_truthy. rewrite bool_decide_eq_false_2 by exact Hne. reflexivity. }
  rewrite Ht.
  split; [reflexivity|]. split; [reflexivity|]. split; [reflexivity|].
  split; [reflexivity|]. split.
  - intros Hn. unfold cached_response. rewrite lookup_union_r by exact Hn.
    apply lookup_singleton_eq.
  - intros key v Hin Hk. split.
    + apply video_info_of_key; assumption.
    + unfold cached_response. apply lookup_union_Some_l. exact Hk.
Qed.

Lemma info_cache_hit_witness :
  let '(st1, _, _) := get_video_info eng_ok 0 (WATCH ++ RICK) false false st0 in
  let '(_, evB, rB) := get_video_info eng_ok 1 (WATCH ++ RICK) true false (set_now st1 10) in
  evB = [] /\ rB = ROk (cached_response playable_info).
Proof.
  assert (Hne : playable_info <> ∅).
  { intros H. apply (f_equal (lookup "id")) in H. vm_compute in H. discriminate. }
  pose proof (info_cache_hit eng_ok 0 1 (WATCH ++ RICK) true st0
                (extract_video_info eng_ok 0 (normalize_youtube_url (WATCH ++ RICK))).1
                playable_info 10
                ltac:(vm_compute; reflexivity) ltac:(vm_compute; reflexivity)
                ltac:(vm_compute; reflexivity) ltac:(vm_compute; reflexivity)
                Hne ltac:(cbn; lra) ltac:(cbn; lra)) as H.
  revert H.
  destruct (get_video_info eng_ok 0 (WATCH ++ RICK) false false st0) as [[st1 evA] rA].
  destruct (get_video_info eng_ok 1 (WATCH ++ RICK) true false (set_now st1 10))
    as [[st2 evB] rB].
  intros (_ & _ & HB & HR & _). split; assumption.
Defined.

(** C3 (defect): the cache-hit path of [/video/info] answers
    [{"cached": True, **cached_info}], the raw stored extraction, where the
    miss path fills the defaults of its fields and the cache-hit path of
    [/video/download] fills them too.  An extraction without [title]:
    the first [/video/info] answers "Unknown Title"; the same request 10 s
    later makes no engine call and answers without any [title]; a
    [/video/download] served from the same cache entry at that time
    answers "Unknown Title". *)
Lemma cached_info_drops_defaults :
  (let '(st1, ev1, r1) := get_video_info eng_untitled 0 (WATCH ++ RICK) false false st0 in
   let '(_, ev2, r2) := get_video_info eng_untitled (ncalls ev1) (WATCH ++ RICK) false false
                          (set_now st1 10) in
   let '(_, ev3, r3) := get_video_download_links eng_untitled 10 (ncalls ev1) (WATCH ++ RICK)
                          "high" "mp4" false (set_now st1 10) in
   (match r1 with ROk b => b !! "title" | _ => None end,
    ncalls ev2,
    match r2 with ROk b => (b !! "title", b !! "cached") | _ => (None, None) end,
    ncalls ev3,
    match r3 with ROk b => (b !! "title", b !! "cached") | _ => (None, None) end))
  = (Some (VStr "Unknown Title"), 0%nat, (None, Some (VBool true)),
     0%nat, (Some (VStr "Unknown Title"), Some (VBool true))).
Proof. vm_compute. reflexivity. Qed.

(** ** [/playlist/download] *)

Lemma playlist_loop_videos eng fuel clock quality format videos :
  forall i k st st' ev links,
  playlist_loop eng fuel clock i k quality format videos st = (st', ev, Some links) ->
  map link_video links = videos.
Proof.
  induction videos as [|video rest IH]; intros i k st st' ev links; simpl.
  - intros [= _ _ <-]. reflexivity.
  - destruct (member_call eng fuel k quality format video (set_now st (clock i)))
      as [[st1 ev1] r].
    destruct r; try discriminate;
      destruct (playlist_loop eng fuel clock (S i) (k + ncalls ev1) quality format rest st1)
        as [[st2 ev2] [ls|]] eqn:E; simpl; intros H; inversion H; subst; simpl;
      f_equal; eapply IH; exact E.
Qed.

(** C9: members are processed in order; a member whose call ends in an
    error (an HTTP error or an exception) is recorded as an error entry
    carrying that member's video, and the loop goes on with the next
    member; a successful response lists one entry per member, in the
    members' order, with [total_processed] equal to the number of members
    processed. *)
Theorem playlist_download_isolation :
  (forall eng fuel clock i k quality format videos st st' ev links,
     playlist_loop eng fuel clock i k quality format videos st = (st', ev, Some links) ->
     map link_video links = videos /\ List.length links = List.length videos)
  /\ (forall eng fuel clock i k quality format video rest st,
       match (member_call eng fuel k quality format video (set_now st (clock i))).2 with
       | ROk _ | RStuck => false
       | _ => true
       end = true ->
       exists err,
         playlist_loop eng fuel clock i k quality format (video :: rest) st
         = let '(st1, ev1, _) := member_call eng fuel k quality format video (set_now st (clock i)) in
           let '(st2, ev2, links) :=
             playlist_loop eng fuel clock (S i) (k + ncalls ev1) quality format rest st1 in
           (st2, app ev1 ev2, option_map (cons (LinkErr video err)) links))
  /\ (forall eng fuel clock k url quality format limit st,
       match (get_playlist_download_links eng fuel clock k url quality format limit st).2 with
       | PlOk pinfo links n =>
           n = List.length (firstn limit (pl_videos pinfo))
           /\ map link_video links = firstn limit (pl_videos pinfo)
       | _ => True
       end).
Proof.
  split; [|split].
  - intros eng fuel clock i k quality format videos st st' ev links H.
    pose proof (playlist_loop_videos _ _ _ _ _ _ _ _ _ _ _ _ H) as Hm.
    split; [exact Hm|]. rewrite <- Hm. symmetry. apply length_map.
  - intros eng fuel clock i k quality format video rest st.
    simpl. destruct (member_call eng fuel k quality format video (set_now st (clock i)))
      as [[st1 ev1] r]. simpl.
    destruct r as [b|sc d|m|]; try discriminate; intros _.
    + exists (exc_str sc d). reflexivity.
    + exists m. reflexivity.
  - intros eng fuel clock k url quality format limit st.
    unfold get_playlist_download_links.
    destruct (negb _); [exact I|].
    destruct (quality_option quality); [|exact I].
    destruct (get_playlist_info eng k url limit) as [ev0 [pinfo|[sc d]]]; [|exact I].
    destruct (playlist_loop eng fuel clock 0 (k + ncalls ev0) quality format
                (firstn limit (pl_videos pinfo)) st) as [[st' ev1] [links|]] eqn:E;
      [|exact I].
    apply playlist_loop_videos in E. simpl. split; [|exact E].
    rewrite <- E. symmetry. apply length_map.
Qed.

(** The spec's example: five members, the third one private. *)
Lemma playlist_download_isolation_witness :
  (let '(_, _, r) := get_playlist_download_links eng_playlist 10 clock10 0 PLAYLIST
                       "high" "mp4" 10 st0 in
   match r with
   | PlOk _ links n =>
       (n, map (fun l => match l with LinkOk _ _ => true | LinkErr _ _ => false end) links)
   | _ => (0%nat, [])
   end) = (5%nat, [true; true; false; true; true])
  /\ (exists err,
        playlist_loop eng_playlist 10 clock10 2 0 "high" "mp4"
          (map (fun id => dict_of [("id", VStr id); ("title", VStr id);
                                   ("url", VNull); ("duration", VNull); ("uploader", VNull)])
               ["aaaaaaaaaa3"; "aaaaaaaaaa4"; "aaaaaaaaaa5"]) st0
        = let video := dict_of [("id", VStr "aaaaaaaaaa3"); ("title", VStr "aaaaaaaaaa3");
                                ("url", VNull); ("duration", VNull); ("uploader", VNull)] in
          let '(st1, ev1, _) := member_call eng_playlist 10 0 "high" "mp4" video
                                  (set_now st0 (clock10 2)) in
          let '(st2, ev2, links) :=
            playlist_loop eng_playlist 10 clock10 3 (0 + ncalls ev1) "high" "mp4"
              (map (fun id => dict_of [("id", VStr id); ("title", VStr id);
                                       ("url", VNull); ("duration", VNull); ("uploader", VNull)])
                   ["aaaaaaaaaa4"; "aaaaaaaaaa5"]) st1 in
          (st2, app ev1 ev2, option_map (cons (LinkErr video err)) links))
  /\ (let '(st', ev, r) := playlist_loop eng_playlist 10 clock10 0 0 "high" "mp4"
                            (map (fun id => dict_of [("id", VStr id)]) MEMBER_IDS) st0 in
      List.length (match r with Some l => l | None => [] end) = 5%nat).
Proof.
  split; [vm_compute; reflexivity|]. split.
  - apply (proj1 (proj2 playlist_download_isolation)). vm_compute. reflexivity.
  - set (X := playlist_loop eng_playlist 10 clock10 0 0 "high" "mp4"
                (map (fun id => dict_of [("id", VStr id)]) MEMBER_IDS) st0).
    pose proof (proj1 playlist_download_isolation eng_playlist 10 clock10 0 0 "high" "mp4"
                  (map (fun id => dict_of [("id", VStr id)]) MEMBER_IDS) st0
                  X.1.1 X.1.2 (match X.2 with Some l => l | None => [] end)
                  ltac:(subst X; vm_compute; reflexivity)) as [_ H].
    destruct X as [[st' ev] r]. exact H.
Defined.

(** ** The URL check *)

Lemma str_app_assoc a b c : a ++ (b ++ c) = (a ++ b) ++ c.
Proof.
  induction a as [|x a IH]; [reflexivity|].
  rewrite (append_String x a (b ++ c)), (append_String x a b),
    (append_String x (a ++ b) c), IH. reflexivity.
Qed.

Lemma str_length_app a b : String.length (a ++ b) = String.length a + String.length b.
Proof.
  induction a as [|x a IH]; [reflexivity|].
  rewrite append_String. simpl. rewrite IH. reflexivity.
Qed.

Lemma in_mtch_seq r1 r2 s s' :
  In s' (mtch (RSeq r1 r2) s) <-> exists s1, In s1 (mtch r1 s) /\ In s' (mtch r2 s1).
Proof. simpl. rewrite in_flat_map. reflexivity. Qed.

Lemma in_mtch_alt r1 r2 s s' :
  In s' (mtch (RAlt r1 r2) s) <-> In s' (mtch r1 s) \/ In s' (mtch r2 s).
Proof. simpl. apply in_app_iff. Qed.

Lemma in_mtch_opt r s s' : In s' (mtch (ROpt r) s) <-> In s' (mtch r s) \/ s' = s.
Proof. simpl. rewrite in_app_iff. simpl. intuition. Qed.

Lemma mtch_chr_sound c s s' : In s' (mtch (RChr c) s) -> s = String c s'.
Proof.
  destruct s as [|x s]; simpl; [intros []|].
  destruct (Ascii.eqb x c) eqn:E; [|intros []].
  intros [<-|[]]. apply Ascii.eqb_eq in E. subst. reflexivity.
Qed.

Lemma mtch_chr_complete c s : In s (mtch (RChr c) (String c s)).
Proof. simpl. rewrite Ascii.eqb_refl. left. reflexivity. Qed.

(** Every remainder is a suffix. *)
Lemma mtch_suffix r : forall s s', In s' (mtch r s) -> exists p, s = p ++ s'.
Proof.
  induction r as [c|cs| |r1 IH1 r2 IH2|r1 IH1 r2 IH2|r IH|r IH|n r IH];
    intros s s' H.
  - apply mtch_chr_sound in H. subst. exists (String c EmptyString). reflexivity.
  - destruct s as [|x s]; simpl in H; [destruct H|].
    destruct (existsb _ _); [destruct H|]. destruct H as [<-|[]].
    exists (String x EmptyString). reflexivity.
  - destruct s as [|x s]; simpl in H; [destruct H|].
    destruct (Ascii.eqb _ _); [destruct H|]. destruct H as [<-|[]].
    exists (String x EmptyString). reflexivity.
  - apply in_mtch_seq in H as (s1 & H1 & H2).
    destruct (IH1 _ _ H1) as [p1 ->]. destruct (IH2 _ _ H2) as [p2 ->].
    exists (p1 ++ p2). apply str_app_assoc.
  - apply in_mtch_alt in H as [H|H]; [exact (IH1 _ _ H)|exact (IH2 _ _ H)].
  - apply in_mtch_opt in H as [H| ->]; [exact (IH _ _ H)|exists EmptyString; reflexivity].
  - assert (G : forall m s0 s',
      In s' ((fix go (n : nat) (s0 : string) : list string :=
                match n with
                | O => []
                | S n' => flat_map (fun s' => app (go n' s') [s']) (mtch r s0)
                end) m s0) -> exists p, s0 = p ++ s').
    2: exact (G (S (String.length s)) s s' H).
    clear s s' H. induction m as [|m IHm]; intros s0 s' H; simpl in H; [destruct H|].
    apply in_flat_map in H as (s1 & H1 & H2).
    destruct (IH _ _ H1) as [q ->].
    apply in_app_or in H2 as [H2|[<-|[]]].
    + destruct (IHm _ _ H2) as [p ->]. exists (q ++ p). apply str_app_assoc.
    + exists q. reflexivity.
  - cbn [mtch] in H. revert s s' H.
    induction n as [|n IHn]; intros s0 s' H; simpl in H.
    + destruct H as [<-|[]]. exists EmptyString. reflexivity.
    + apply in_flat_map in H as (s1 & H1 & H2).
      destruct (IH _ _ H1) as [q ->]. destruct (IHn _ _ H2) as [p ->].
      exists (q ++ p). apply str_app_assoc.
Qed.

Lemma mtch_lit_sound p : forall s s', p <> EmptyString -> In s' (mtch (lit p) s) -> s = p ++ s'.
Proof.
  induction p as [|c p IH]; intros s s' Hp H; [congruence|].
  destruct p as [|c2 p2].
  - exact (mtch_chr_sound _ _ _ H).
  - change (lit (String c (String c2 p2))) with (RSeq (RChr c) (lit (String c2 p2))) in H.
    apply in_mtch_seq in H as (s1 & H1 & H2). apply mtch_chr_sound in H1. subst s.
    rewrite (IH s1 s' ltac:(discriminate) H2). reflexivity.
Qed.

Lemma mtch_lit_complete p : forall s, p <> EmptyString -> In s (mtch (lit p) (p ++ s)).
Proof.
  induction p as [|c p IH]; intros s Hp; [congruence|].
  rewrite append_String. destruct p as [|c2 p2].
  - apply mtch_chr_complete.
  - change (lit (String c (String c2 p2))) with (RSeq (RChr c) (lit (String c2 p2))).
    apply in_mtch_seq. exists (String c2 p2 ++ s). split.
    + apply mtch_chr_complete.
    + apply IH. discriminate.
Qed.

Lemma rep_not_sound cs n : forall s s',
  In s' (mtch (RRep n (RNot cs)) s) -> exists p, s = p ++ s' /\ String.length p = n.
Proof.
  induction n as [|n IH]; intros s s' H; simpl in H.
  - destruct H as [<-|[]]. exists EmptyString. split; reflexivity.
  - destruct s as [|x s]; [destruct H|].
    destruct (existsb _ _); [destruct H|]. simpl in H. rewrite app_nil_r in H.
    destruct (IH s s' H) as (p & -> & Hl).
    exists (String x p). split; [reflexivity|]. simpl. rewrite Hl. reflexivity.
Qed.

Lemma rep_not_complete cs id tail :
  (forall x, In x (list_ascii_of_string id) -> existsb (Ascii.eqb x) cs = false) ->
  In tail (mtch (RRep (String.length id) (RNot cs)) (id ++ tail)).
Proof.
  induction id as [|x id IH]; intros H; [simpl; left; reflexivity|].
  rewrite append_String. simpl.
  rewrite (H x (or_introl eq_refl)). simpl. rewrite app_nil_r.
  apply IH. intros y Hy. apply H. right. exact Hy.
Qed.

Ltac in_concrete :=
  repeat (first [left; reflexivity | right]).

Lemma scheme_sound s s1 :
  In s1 (mtch (ROpt (RSeq (lit "http") (RSeq (ROpt (RChr "s"%char)) (lit "://")))) s) ->
  exists sch, In sch [""; "http://"; "https://"] /\ s = sch ++ s1.
Proof.
  intros H. apply in_mtch_opt in H as [H| ->]; [|exists ""; split; [left|]; reflexivity].
  apply in_mtch_seq in H as (a & Ha & H). apply mtch_lit_sound in Ha; [|discriminate].
  apply in_mtch_seq in H as (b & Hb & H). apply mtch_lit_sound in H; [|discriminate].
  subst. apply in_mtch_opt in Hb as [Hb| <-].
  - apply mtch_chr_sound in Hb. subst. exists "https://". split; [in_concrete|reflexivity].
  - exists "http://". split; [in_concrete|reflexivity].
Qed.

Lemma www_sound s s1 :
  In s1 (mtch (ROpt (lit "www.")) s) -> exists w, In w [""; "www."] /\ s = w ++ s1.
Proof.
  intros H. apply in_mtch_opt in H as [H| ->]; [|exists ""; split; [left|]; reflexivity].
  apply mtch_lit_sound in H; [|discriminate]. subst.
  exists "www.". split; [in_concrete|reflexivity].
Qed.

(** The fixed part of [youtube_regex], up to its [/]. *)
Lemma youtube_prefix_sound g url s' :
  In s' (mtch (RSeq (ROpt (RSeq (lit "http") (RSeq (ROpt (RChr "s"%char)) (lit "://"))))
        (RSeq (ROpt (lit "www."))
        (RSeq (alts (lit "youtube") [lit "youtu"; lit "youtube-nocookie"])
        (RSeq (RChr "."%char)
        (RSeq (alts (lit "com") [lit "be"])
        (RSeq (RChr "/"%char) g)))))) url) ->
  exists pre s1, In pre url_prefixes /\ url = pre ++ s1 /\ In s' (mtch g s1).
Proof.
  intros H. cbn [alts fold_left] in H.
  apply in_mtch_seq in H as (a & Ha & H). apply scheme_sound in Ha as (sch & Hsch & ->).
  apply in_mtch_seq in H as (b & Hb & H). apply www_sound in Hb as (w & Hw & ->).
  apply in_mtch_seq in H as (c & Hc & H).
  apply in_mtch_seq in H as (d & Hd & H). apply mtch_chr_sound in Hd. subst c.
  apply in_mtch_seq in H as (e & He & H).
  apply in_mtch_seq in H as (f & Hf & H). apply mtch_chr_sound in Hf. subst e.
  assert (Hh : exists h, In h ["youtube"; "youtu"; "youtube-nocookie"]
                         /\ b = h ++ String "." d).
  { apply in_mtch_alt in Hc as [Hc|Hc]; [apply in_mtch_alt in Hc as [Hc|Hc]|];
      apply mtch_lit_sound in Hc; try discriminate; subst;
      [exists "youtube"|exists "youtu"|exists "youtube-nocookie"];
      (split; [in_concrete|reflexivity]). }
  assert (Ht : exists tld, In tld ["com"; "be"] /\ d = tld ++ String "/" f).
  { apply in_mtch_alt in He as [He|He]; apply mtch_lit_sound in He; try discriminate;
      subst; [exists "com"|exists "be"]; (split; [in_concrete|reflexivity]). }
  destruct Hh as (h & Hh & ->). destruct Ht as (tld & Htld & ->).
  exists (sch ++ w ++ h ++ "." ++ tld ++ "/"), f. split; [|split; [|exact H]].
  - unfold url_prefixes. apply in_flat_map. exists sch. split; [exact Hsch|].
    apply in_flat_map. exists w. split; [exact Hw|].
    apply in_flat_map. exists h. split; [exact Hh|].
    apply in_map_iff. exists tld. split; [reflexivity|exact Htld].
  - rewrite <- !str_app_assoc. reflexivity.
Qed.

Lemma youtube_prefix_complete g pre rest s' :
  In pre url_prefixes -> In s' (mtch g rest) ->
  In s' (mtch (RSeq (ROpt (RSeq (lit "http") (RSeq (ROpt (RChr "s"%char)) (lit "://"))))
        (RSeq (ROpt (lit "www."))
        (RSeq (alts (lit "youtube") [lit "youtu"; lit "youtube-nocookie"])
        (RSeq (RChr "."%char)
        (RSeq (alts (lit "com") [lit "be"])
        (RSeq (RChr "/"%char) g)))))) (pre ++ rest)).
Proof.
  intros Hpre Hg. unfold url_prefixes in Hpre. cbv [flat_map map List.app] in Hpre.
  repeat destruct Hpre as [<-|Hpre]; try destruct Hpre;
    cbv [String.append]; simpl; repeat (rewrite in_app_iff || rewrite app_nil_r);
    tauto.
Qed.

Lemma re_match_in r s : re_match r s = true <-> exists s', In s' (mtch r s).
Proof.
  unfold re_match. destruct (mtch r s) as [|x l]; split; try discriminate.
  - intros (s' & []).
  - intros _. exists x. left. reflexivity.
  - intros _. reflexivity.
Qed.

(** [validate_youtube_url] accepts only URLs that begin with one of the
    36 prefixes [(http://|https://)?(www.)?(youtube|youtu|youtube-nocookie).(com|be)/]
    and have at least 11 more characters. *)
Theorem validate_youtube_url_prefix (url : string) :
  validate_youtube_url url = true ->
  exists pre rest, In pre url_prefixes /\ url = pre ++ rest /\ 11 <= String.length rest.
Proof.
  unfold validate_youtube_url. intros H. apply orb_true_iff in H as [H|H];
    apply re_match_in in H as (s' & H).
  - unfold youtube_regex in H. apply youtube_prefix_sound in H as (pre & s1 & Hpre & -> & H).
    apply in_mtch_seq in H as (x & Hx & H). apply mtch_suffix in Hx as [p ->].
    apply rep_not_sound in H as (id & -> & Hl).
    exists pre, (p ++ id ++ s'). split; [exact Hpre|]. split; [reflexivity|].
    rewrite !str_length_app. lia.
  - unfold youtu_be_regex in H.
    apply in_mtch_seq in H as (a & Ha & H). apply scheme_sound in Ha as (sch & Hsch & ->).
    apply in_mtch_seq in H as (b & Hb & H). apply www_sound in Hb as (w & Hw & ->).
    apply in_mtch_seq in H as (c & Hc & H). apply mtch_lit_sound in Hc; [|discriminate].
    subst b. apply rep_not_sound in H as (id & -> & Hl).
    exists (sch ++ w ++ "youtu.be/"), (id ++ s'). split; [|split].
    + unfold url_prefixes. apply in_flat_map. exists sch. split; [exact Hsch|].
      apply in_flat_map. exists w. split; [exact Hw|].
      apply in_flat_map. exists "youtu". split; [in_concrete|].
      apply in_map_iff. exists "be". split; [reflexivity|in_concrete].
    + rewrite <- !str_app_assoc. reflexivity.
    + rewrite str_length_app. lia.
Qed.

Lemma validate_youtube_url_prefix_witness :
  validate_youtube_url (WATCH ++ RICK) = true
  /\ exists pre rest, In pre url_prefixes /\ WATCH ++ RICK = pre ++ rest
                     /\ 11 <= String.length rest.
Proof.
  split; [vm_compute; reflexivity|].
  apply validate_youtube_url_prefix. vm_compute. reflexivity.
Defined.

Lemma id_re_ok_chars id :
  id_re_ok id = true ->
  String.length id = 11
  /\ forall x, In x (list_ascii_of_string id)
               -> existsb (Ascii.eqb x) ["&"; "="; "%"; "?"]%char = false.
Proof.
  unfold id_re_ok. intros H. apply andb_prop in H as [Hl Hc].
  split; [apply Nat.eqb_eq; exact Hl|].
  intros x Hx. rewrite forallb_forall in Hc. specialize (Hc x Hx).
  destruct (existsb _ _); [discriminate|reflexivity].
Qed.

Lemma validate_accepts (pre path id tail : string) :
  In pre url_prefixes -> In path url_paths -> id_re_ok id = true ->
  validate_youtube_url (pre ++ path ++ id ++ tail) = true.
Proof.
  intros Hpre Hpath Hid. apply id_re_ok_chars in Hid as [Hl Hc].
  unfold validate_youtube_url. apply orb_true_iff. left. apply re_match_in.
  exists tail. unfold youtube_regex. apply youtube_prefix_complete; [exact Hpre|].
  apply in_mtch_seq. exists (id ++ tail). split.
  - apply in_mtch_opt. cbn [alts fold_left].
    destruct Hpath as [<-|[<-|[<-|[<-|[]]]]].
    + right. reflexivity.
    + left. apply in_mtch_alt. left. apply in_mtch_alt. left. apply in_mtch_alt. left.
      apply mtch_lit_complete. discriminate.
    + left. apply in_mtch_alt. left. apply in_mtch_alt. left. apply in_mtch_alt. right.
      apply mtch_lit_complete. discriminate.
    + left. apply in_mtch_alt. left. apply in_mtch_alt. right.
      apply mtch_lit_complete. discriminate.
  - unfold video_id_re. rewrite <- Hl. apply rep_not_complete. exact Hc.
Qed.

(** Conversely, any of those prefixes, followed by nothing, [watch?v=],
    [embed/] or [v/], then by eleven characters other than [&=%?], is
    accepted, whatever follows them ([re.match] anchors at the start
    only); the eleven characters need not be a video id. *)
Theorem validate_youtube_url_accepts (pre path id tail : string) :
  In pre url_prefixes -> In path url_paths -> id_re_ok id = true ->
  validate_youtube_url (pre ++ path ++ id ++ tail) = true.
Proof. apply validate_accepts. Qed.


(** A page that is not a video, [youtube.com/about/press], is accepted. *)
Lemma validate_youtube_url_accepts_witness :
  validate_youtube_url ("https://youtube.com/" ++ "" ++ "about/press" ++ "") = true.
Proof.
  apply validate_youtube_url_accepts.
  - vm_compute. in_concrete.
  - left. reflexivity.
  - vm_compute. reflexivity.
Defined.

(** ** [normalize_youtube_url] on a watch URL shared with [feature=youtu.be] *)

(** A watch URL whose query mentions "youtu.be" (as YouTube's share links
    do with [&feature=youtu.be]) takes the youtu.be branch: its last
    [/]-segment is [watch?v=...], so the id becomes ["watch"] and every
    such URL, whatever its video, normalises to [watch?v=watch]. *)
Theorem normalize_youtu_be_in_query (q : string) :
  contains "youtu.be" q = true ->
  (forall x, In x (list_ascii_of_string q) -> x <> "/"%char) ->
  normalize_youtube_url (WATCH ++ q) = WATCH ++ "watch".
Proof.
  intros Hyb Hq. unfold normalize_youtube_url.
  rewrite (contains_app_r _ WATCH q Hyb).
  change (WATCH ++ q) with ("https://www.youtube.com" ++ String "/" ("watch?v=" ++ q)).
  destruct (split_app_sep "/"%char "https://www.youtube.com" ("watch?v=" ++ q))
    as (h & t & ->).
  assert (Hs : split "/"%char ("watch?v=" ++ q) = ["watch?v=" ++ q]).
  { apply split_single. intros x Hx. rewrite chars_app in Hx.
    apply in_app_or in Hx as [Hx|Hx]; [|exact (Hq x Hx)].
    simpl in Hx. intros ->. repeat destruct Hx as [Hx|Hx]; try discriminate Hx.
    exact Hx. }
  rewrite app_comm_cons, last_of_app by (rewrite Hs; discriminate).
  rewrite Hs. unfold last_of, first_of. simpl. reflexivity.
Qed.

Lemma normalize_youtu_be_in_query_witness :
  normalize_youtube_url (WATCH ++ RICK ++ "&feature=youtu.be") = WATCH ++ "watch".
Proof.
  apply normalize_youtu_be_in_query.
  - vm_compute. reflexivity.
  - intros x Hx. vm_compute in Hx.
    repeat destruct Hx as [<-|Hx]; try discriminate. destruct Hx.
Defined.

(** ** The cache key *)

Lemma hex_digit_ok (n : Z) : (0 <= n < 16)%Z -> is_hex_lower (MD5.hex_digit n) = true.
Proof.
  intros Hn. assert (Hm : exists m : nat, (m < 16)%nat /\ n = Z.of_nat m)
    by (exists (Z.to_nat n); lia).
  destruct Hm as (m & Hm & ->).
  do 16 (destruct m as [|m]; [reflexivity|]). lia.
Qed.

Lemma hex_byte_ok (b : Z) : (0 <= b < 256)%Z -> forallb is_hex_lower (MD5.hex_byte b) = true.
Proof.
  intros Hb. unfold MD5.hex_byte. simpl.
  rewrite Z.shiftr_div_pow2 by lia.
  change 15%Z with (Z.ones 4). rewrite Z.land_ones by lia.
  change (2 ^ 4)%Z with 16%Z.
  rewrite !hex_digit_ok; [reflexivity| |].
  - apply Z.mod_pos_bound. lia.
  - split; [apply Z.div_pos; lia|apply Z.div_lt_upper_bound; lia].
Qed.

Lemma le_bytes_range w x b : In b (MD5.le_bytes w x) -> (0 <= b < 256)%Z.
Proof.
  unfold MD5.le_bytes. intros Hb. apply in_map_iff in Hb as (i & <- & _).
  change 255%Z with (Z.ones 8). rewrite Z.land_ones by lia.
  apply (Z.mod_pos_bound _ (2 ^ 8)%Z). reflexivity.
Qed.

Lemma length_string_of_list_ascii l : String.length (string_of_list_ascii l) = List.length l.
Proof. induction l as [|c l IH]; simpl; [reflexivity|]. rewrite IH. reflexivity. Qed.

(** Every cache key is 32 lowercase hexadecimal digits, whatever the
    URL, quality and format. *)
Theorem get_cache_key_hex (url quality format : string) :
  String.length (get_cache_key url quality format) = 32%nat
  /\ forallb is_hex_lower (list_ascii_of_string (get_cache_key url quality format)) = true.
Proof.
  unfold get_cache_key, MD5.hexdigest.
  destruct (MD5.blocks _ _ _) as [[[a b] c] d]. split.
  - rewrite length_string_of_list_ascii. reflexivity.
  - rewrite list_ascii_of_string_of_list_ascii. apply forallb_forall.
    intros ch Hch. apply in_flat_map in Hch as (byte & Hbyte & Hch).
    apply in_flat_map in Hbyte as (w & _ & Hbyte).
    pose proof (hex_byte_ok byte (le_bytes_range _ _ _ Hbyte)) as H.
    rewrite forallb_forall in H. exact (H ch Hch).
Qed.


(** ** [get_download_formats] *)

Lemma download_formats_fold (fss : list (list (string * val))) :
  fold_right (fun fmt acc =>
        match fmt, acc with
        | VObj fs, Some l =>
            if negb (is_none_str (obj_get fs "vcodec" VNull))
               || negb (is_none_str (obj_get fs "acodec" VNull)) then
              Some (format_entry fs :: l)
            else Some l
        | _, _ => None
        end) (Some []) (map VObj fss)
  = Some (map format_entry (List.filter (fun fs => keeps_format (VObj fs)) fss)).
Proof.
  induction fss as [|fs fss IH]; simpl; [reflexivity|].
  rewrite IH. unfold keeps_format.
  destruct (negb (is_none_str (obj_get fs "vcodec" VNull))
            || negb (is_none_str (obj_get fs "acodec" VNull))); reflexivity.
Qed.

(** [get_download_formats] gives [[]] when [info] has no [formats] key.
    When [formats] is a list of dicts it gives, in order, the projection
    [format_entry] of each format whose [vcodec] or [acodec] is not
    ['none'] (a missing key counts as not ['none']), and drops the others.
    It raises when an element of the list is not a dict, and when
    [formats] is not a list, except when its [len] is 0 (an empty string
    or an empty dict: nothing to iterate over). *)
Theorem get_download_formats_filter (info : gmap string val) :
  (info !! "formats" = None -> get_download_formats info = Some [])
  /\ (forall fss, info !! "formats" = Some (VList (map VObj fss)) ->
      get_download_formats info
      = Some (map format_entry (List.filter (fun fs => keeps_format (VObj fs)) fss)))
  /\ (forall fmts, info !! "formats" = Some (VList fmts) ->
      existsb (fun f => negb (is_obj f)) fmts = true -> get_download_formats info = None)
  /\ (forall v, info !! "formats" = Some v -> (forall fmts, v <> VList fmts) ->
      get_download_formats info
      = if bool_decide (py_len v = Some 0%nat) then Some [] else None).
Proof.
  unfold get_download_formats. split; [|split; [|split]].
  - intros ->. reflexivity.
  - intros fss ->. apply download_formats_fold.
  - intros fmts ->. induction fmts as [|f fmts IH]; simpl; [discriminate|].
    intros H. apply orb_true_iff in H as [H|H].
    + destruct f; try discriminate H; destruct (fold_right _ _ fmts); reflexivity.
    + rewrite (IH H). destruct f; reflexivity.
  - intros v -> Hv.
    destruct v as [| | |[|c s]|l|[|kv fs]]; try reflexivity.
    exfalso. exact (Hv l eq_refl).
Qed.

Lemma get_download_formats_filter_witness :
  get_download_formats
    (dict_of [("formats", VList (map VObj
       [[("vcodec", VStr "none"); ("acodec", VStr "none")];
        [("format_id", VStr "251"); ("vcodec", VStr "none"); ("acodec", VStr "opus")];
        [("format_id", VStr "18")]]))])
  = Some [format_entry [("format_id", VStr "251"); ("vcodec", VStr "none"); ("acodec", VStr "opus")];
          format_entry [("format_id", VStr "18")]]
  /\ get_download_formats (dict_of [("formats", VList [VObj []; VInt 1])]) = None
  /\ get_download_formats (dict_of [("formats", VNull)]) = None.
Proof.
  split; [|split].
  - rewrite (proj1 (proj2 (get_download_formats_filter _))
      [[("vcodec", VStr "none"); ("acodec", VStr "none")];
       [("format_id", VStr "251"); ("vcodec", VStr "none"); ("acodec", VStr "opus")];
       [("format_id", VStr "18")]]) by reflexivity.
    reflexivity.
  - apply (proj1 (proj2 (proj2 (get_download_formats_filter _))) [VObj []; VInt 1]);
      reflexivity.
  - apply (proj2 (proj2 (proj2 (get_download_formats_filter _))) VNull);
      [reflexivity | intros fmts H; discriminate H].
Defined.

(** ** The retry loop of [/video/download] *)

Lemma attempt_loop_bounds eng url fmt fuel : forall k a, (a < 3)%nat ->
  let '(ev, r) := attempt_loop eng url fmt fuel k a in
  r <> AHttp 400 (VStr "Could not extract video information after multiple attempts.")
  /\ (nsleeps ev <= 2 - a)%nat.
Proof.
  induction fuel as [|f IH]; intros k a Ha.
  - split; [discriminate | ns_lia].
  - assert (Hlt : Nat.ltb a max_attempts = true) by (apply Nat.ltb_lt; exact Ha).
    cbn [attempt_loop]. rewrite Hlt.
    destruct (eng k _) as [info| |m|m].
    + split; [discriminate | ns_lia].
    + specialize (IH (S k) a Ha).
      destruct (attempt_loop eng url fmt f (S k) a) as [ev r]. exact IH.
    + destruct (Nat.leb max_attempts (S a)) eqn:E.
      * split; [|ns_lia].
        unfold classify_final.
        destruct (contains SIGN_IN m); [discriminate|].
        destruct (contains PRIVATE m); [discriminate|].
        destruct (contains UNAVAILABLE m); [discriminate|].
        rewrite append_String. discriminate.
      * apply Nat.leb_gt in E. specialize (IH (S k) (S a) E).
        destruct (attempt_loop eng url fmt f (S k) (S a)) as [ev r].
        destruct IH as [IH1 IH2]. split; [exact IH1|]. unfold max_attempts in E. ns_lia.
    + destruct (Nat.leb max_attempts (S a)) eqn:E.
      * split; [discriminate | ns_lia].
      * apply Nat.leb_gt in E. specialize (IH (S k) (S a) E).
        destruct (attempt_loop eng url fmt f (S k) (S a)) as [ev r].
        destruct IH as [IH1 IH2]. split; [exact IH1|]. ns_lia.
Qed.

Lemma download_extract_bounds eng fuel k url quality qfmt format st :
  let '(_, ev, r) := download_extract eng fuel k url quality qfmt format st in
  r <> RHttp 400 (VStr "Could not extract video information after multiple attempts.")
  /\ (nsleeps ev <= 2)%nat.
Proof.
  unfold download_extract. cbv zeta.
  generalize (if String.eqb format "mp3" then "bestaudio/best" else qfmt). intros fmt.
  unfold get_download_info_enhanced.
  pose proof (attempt_loop_bounds eng url fmt fuel k 0 ltac:(lia)) as H.
  destruct (attempt_loop eng url fmt fuel k 0) as [ev r].
  destruct H as [H1 H2]. rewrite Nat.sub_0_r in H2.
  destruct r as [info|status detail|m|]; simpl.
  - destruct (negb _); (split; [discriminate | exact H2]).
  - split; [|exact H2]. intros [= -> ->]. apply H1. reflexivity.
  - split; [discriminate | exact H2].
  - split; [discriminate | exact H2].
Qed.

(** [/video/download] never answers with its final
    ["Could not extract video information after multiple attempts."]
    400: the loop classifies or re-raises the third failure itself.
    A request sleeps at most twice, one second after each of the first
    two failures. *)
Theorem download_retry_bounds eng fuel k url quality format force st :
  let '(_, ev, r) := get_video_download_links eng fuel k url quality format force st in
  r <> RHttp 400 (VStr "Could not extract video information after multiple attempts.")
  /\ (nsleeps ev <= 2)%nat.
Proof.
  unfold get_video_download_links. rewrite admission_denied_or_allowed.
  destruct (admission_check _ _ _ _) as [l|w]; [|split; [discriminate | apply Nat.le_0_l]].
  unfold get_video_download_links_body.
  destruct (negb (validate_youtube_url url)); [split; [discriminate | apply Nat.le_0_l]|].
  destruct (quality_option quality) as [qfmt|]; [|split; [discriminate | apply Nat.le_0_l]].
  destruct (if force then _ else _) as [vc [ci|]].
  - destruct (dict_truthy ci); [split; [discriminate | apply Nat.le_0_l]|].
    apply download_extract_bounds.
  - apply download_extract_bounds.
Qed.

Lemma attempt_loop_none url fmt fuel : forall k,
  let '(ev, r) := attempt_loop (fun _ _ => UNone) url fmt fuel k 0 in
  r = ADiverge /\ ncalls ev = fuel.
Proof.
  induction fuel as [|f IH]; intros k; [split; reflexivity|].
  cbn [attempt_loop]. specialize (IH (S k)).
  destruct (attempt_loop _ url fmt f (S k) 0) as [ev r].
  destruct IH as [-> IH]. split; [reflexivity|]. unfold ncalls in *. simpl. lia.
Qed.

(** When the engine answers every call with [None], a valid forced
    [/video/download] request admitted by the rate limiter never returns:
    [attempts] is not incremented, and each step of the loop is one more
    engine call. *)
Theorem download_none_hangs fuel k url quality format st :
  validate_youtube_url url = true ->
  quality_option quality <> None ->
  allowed (admission_check 20 (last_request_time st) "unknown" (now st)) = true ->
  let '(_, ev, r) := get_video_download_links (fun _ _ => UNone) fuel k url quality format true st in
  r = RStuck /\ ncalls ev = fuel.
Proof.
  intros Hv Hq Ha.
  unfold get_video_download_links. rewrite admission_denied_or_allowed, download_kwargs_ip.
  destruct (admission_check _ _ _ _) as [l|w]; [|discriminate Ha].
  unfold get_video_download_links_body. rewrite Hv. simpl negb. cbv iota.
  destruct (quality_option quality) as [qfmt|]; [|congruence].
  unfold download_extract. cbv zeta.
  generalize (if String.eqb format "mp3" then "bestaudio/best" else qfmt). intros fmt.
  unfold get_download_info_enhanced.
  pose proof (attempt_loop_none (normalize_youtube_url url) fmt fuel k) as H.
  destruct (attempt_loop _ _ fmt fuel k 0) as [ev r].
  destruct H as [-> H]. split; [reflexivity | exact H].
Qed.

Lemma download_none_hangs_witness :
  let '(_, ev, r) := get_video_download_links (fun _ _ => UNone) 5 0 (WATCH ++ RICK) "high" "mp4" true st0 in
  r = RStuck /\ ncalls ev = 5%nat.
Proof.
  apply (download_none_hangs 5 0 (WATCH ++ RICK) "high" "mp4" st0);
    [reflexivity | discriminate | reflexivity].
Defined.

(** ** The sign-in fallback of [extract_video_info] *)

Lemma try_alternatives_outcome eng url methods : forall k,
  let '(ev, r) := try_alternatives eng url k methods in
  (r = XHttp 403 sign_in_alt_detail /\ ncalls ev = List.length methods
   /\ forall j info, (j < List.length methods)%nat ->
        eng (j + k)%nat {| ec_url := url; ec_clients := nth j methods []; ec_format := "" |}
        <> UInfo info)
  \/ (exists j info, (j < List.length methods)%nat /\ r = XInfo info /\ ncalls ev = S j
      /\ eng (j + k)%nat {| ec_url := url; ec_clients := nth j methods []; ec_format := "" |}
         = UInfo info
      /\ forall i info', (i < j)%nat ->
           eng (i + k)%nat {| ec_url := url; ec_clients := nth i methods []; ec_format := "" |}
           <> UInfo info').
Proof.
  induction methods as [|m rest IH]; intros k.
  - left. split; [reflexivity|]. split; [reflexivity|]. intros j info Hj. simpl in Hj. lia.
  - cbn [try_alternatives].
    destruct (eng k {| ec_url := url; ec_clients := m; ec_format := "" |}) as [info| |e|e] eqn:E.
    1: { right. exists 0%nat, info. split; [simpl; lia|]. split; [reflexivity|].
         split; [reflexivity|]. split; [exact E|]. intros i info' Hi. lia. }
    all: specialize (IH (S k)); destruct (try_alternatives eng url (S k) rest) as [ev r].
    all: destruct IH as [(H1 & H2 & H3) | (j & info & Hj & H1 & H2 & H3 & H4)];
      [left; split; [exact H1|]; split; [unfold ncalls in *; simpl; lia|];
       intros [|j] info Hj; [simpl; rewrite E; discriminate|];
       replace (S j + k)%nat with (j + S k)%nat by lia; apply H3; simpl in Hj; lia
      |right; exists (S j), info; split; [simpl; lia|]; split; [exact H1|];
       split; [unfold ncalls in *; simpl; lia|];
       split; [replace (S j + k)%nat with (j + S k)%nat by lia; exact H3|];
       intros [|i] info' Hi; [simpl; rewrite E; discriminate|];
       replace (S i + k)%nat with (i + S k)%nat by lia; apply H4; lia].
Qed.

Lemma alt_call_nth url j : (j < 3)%nat ->
  {| ec_url := url; ec_clients := nth j [["android"]; ["ios"]; ["web"]] []; ec_format := "" |}
  = alt_call url j.
Proof. intros Hj. destruct j as [|[|[|j]]]; [reflexivity..|lia]. Qed.

(** When the first extraction fails with the bot check, [extract_video_info]
    tries the android, ios and web clients in turn and stops at the first
    that gives a dict: either all three fail and the answer is the 403
    "Sign-in required" (four engine calls), or the [j]-th succeeds and its
    dict is returned ([2 + j] calls). *)
Theorem extract_sign_in_fallback eng k url m :
  eng k {| ec_url := url; ec_clients := ["android"; "web"; "ios"; "mweb"]; ec_format := "" |}
  = UDownloadError m ->
  contains SIGN_IN m = true ->
  let '(ev, r) := extract_video_info eng k url in
  (r = XHttp 403 sign_in_alt_detail /\ ncalls ev = 4%nat
   /\ forall j info, (j < 3)%nat -> eng (S j + k)%nat (alt_call url j) <> UInfo info)
  \/ (exists j info, (j < 3)%nat /\ r = XInfo info /\ ncalls ev = (2 + j)%nat
      /\ eng (S j + k)%nat (alt_call url j) = UInfo info
      /\ forall i info', (i < j)%nat -> eng (S i + k)%nat (alt_call url i) <> UInfo info').
Proof.
  intros He Hs. unfold extract_video_info. cbv zeta. rewrite He, Hs.
  unfold try_alternative_extraction.
  pose proof (try_alternatives_outcome eng url [["android"]; ["ios"]; ["web"]] (S k)) as H.
  destruct (try_alternatives _ _ _ _) as [ev r].
  destruct H as [(H1 & H2 & H3) | (j & info & Hj & H1 & H2 & H3 & H4)].
  - left. split; [exact H1|]. split; [unfold ncalls in *; simpl in *; lia|].
    intros j info Hj. rewrite <- (alt_call_nth url j Hj).
    replace (S j + k)%nat with (j + S k)%nat by lia. apply H3. simpl. exact Hj.
  - right. simpl in Hj. exists j, info. split; [exact Hj|]. split; [exact H1|].
    split; [unfold ncalls in *; simpl in *; lia|].
    split; [rewrite <- (alt_call_nth url j Hj);
            replace (S j + k)%nat with (j + S k)%nat by lia; exact H3|].
    intros i info' Hi. rewrite <- (alt_call_nth url i ltac:(lia)).
    replace (S i + k)%nat with (i + S k)%nat by lia. apply H4. exact Hi.
Qed.

Lemma extract_sign_in_fallback_witness :
  let '(ev, r) := extract_video_info eng_sign_in 0 (WATCH ++ RICK) in
  (r = XHttp 403 sign_in_alt_detail /\ ncalls ev = 4%nat
   /\ forall j info, (j < 3)%nat -> eng_sign_in (S j + 0)%nat (alt_call (WATCH ++ RICK) j) <> UInfo info)
  \/ (exists j info, (j < 3)%nat /\ r = XInfo info /\ ncalls ev = (2 + j)%nat
      /\ eng_sign_in (S j + 0)%nat (alt_call (WATCH ++ RICK) j) = UInfo info
      /\ forall i info', (i < j)%nat -> eng_sign_in (S i + 0)%nat (alt_call (WATCH ++ RICK) i) <> UInfo info').
Proof.
  apply (extract_sign_in_fallback eng_sign_in 0 (WATCH ++ RICK) SIGN_IN_ERR);
    [reflexivity | vm_compute; reflexivity].
Defined.

(** ** [/video/status] *)

(** [/video/status] answers an invalid URL with a 400 and no engine call;
    otherwise it makes exactly one [extract_flat] call on the normalized
    URL and always answers with a dict (never an HTTP error), whose
    [accessible] is true exactly when the engine gave a dict, and whose
    [status] is one of available, unavailable, restricted, private or
    error. *)
Theorem check_video_status_shape eng k url :
  let '(ev, r) := check_video_status eng k url in
  (validate_youtube_url url = false -> ev = [] /\ r = RHttp 400 (VStr "Invalid YouTube URL"))
  /\ (validate_youtube_url url = true ->
      ev = [ECall (status_call (normalize_youtube_url url))]
      /\ exists d, r = ROk d
         /\ d !! "accessible"
            = Some (VBool (match eng k (status_call (normalize_youtube_url url)) with
                           | UInfo _ => true | _ => false end))
         /\ exists s, d !! "status" = Some (VStr s)
            /\ In s ["available"; "unavailable"; "restricted"; "private"; "error"]).
Proof.
  unfold check_video_status.
  destruct (validate_youtube_url url) eqn:Hv; simpl negb; cbv iota.
  - cbv zeta.
    destruct (eng k (status_call (normalize_youtube_url url))) as [info| |m|m].
    all: split; [discriminate|]; intros _; split; [reflexivity|]; eexists; split; [reflexivity|].
    + unfold dict_of; rewrite !dict_of_lookup_go. simpl. split; [reflexivity|].
      eexists. split; [reflexivity|]. simpl; tauto.
    + unfold status_dict. unfold dict_of; rewrite !dict_of_lookup_go. simpl. split; [reflexivity|].
      eexists. split; [reflexivity|]. simpl; tauto.
    + destruct (contains SIGN_IN m); [|destruct (contains PRIVATE m);
        [|destruct (contains UNAVAILABLE m)]];
      unfold status_dict; unfold dict_of; rewrite !dict_of_lookup_go; simpl; (split; [reflexivity|]);
      (eexists; split; [reflexivity|]); simpl; tauto.
    + unfold status_dict. unfold dict_of; rewrite !dict_of_lookup_go. simpl. split; [reflexivity|].
      eexists. split; [reflexivity|]. simpl; tauto.
  - split; [intros _; split; reflexivity | discriminate].
Qed.

Lemma check_video_status_shape_witness :
  let '(ev, r) := check_video_status eng_sign_in 0 (WATCH ++ RICK) in
  (validate_youtube_url (WATCH ++ RICK) = false -> ev = [] /\ r = RHttp 400 (VStr "Invalid YouTube URL"))
  /\ (validate_youtube_url (WATCH ++ RICK) = true ->
      ev = [ECall (status_call (normalize_youtube_url (WATCH ++ RICK)))]
      /\ exists d, r = ROk d
         /\ d !! "accessible"
            = Some (VBool (match eng_sign_in 0 (status_call (normalize_youtube_url (WATCH ++ RICK))) with
                           | UInfo _ => true | _ => false end))
         /\ exists s, d !! "status" = Some (VStr s)
            /\ In s ["available"; "unavailable"; "restricted"; "private"; "error"]).
Proof. exact (check_video_status_shape eng_sign_in 0 (WATCH ++ RICK)). Defined.

(** ** [/video/fallback] *)

(** For a valid URL, [/video/fallback] makes one engine call and always
    answers with a dict (never an HTTP error): ["embed"] probes the URL
    with [watch?v=] replaced by [embed/] in flat mode, ["mobile"] uses the
    ios client, and any other method name falls back to the basic
    android extraction; [available] is true exactly when that call gave
    a dict. *)
Theorem get_video_fallback_dispatch eng k url method :
  validate_youtube_url url = true ->
  let u := normalize_youtube_url url in
  let c := if String.eqb method "embed" then
             {| ec_url := str_replace "watch?v=" "embed/" u; ec_clients := [];
                ec_format := "extract_flat" |}
           else {| ec_url := u;
                   ec_clients := [if String.eqb method "mobile" then "ios" else "android"];
                   ec_format := "" |} in
  let name := if String.eqb method "embed" then "embed"
              else if String.eqb method "mobile" then "mobile" else "basic" in
  let '(ev, r) := get_video_fallback_info eng k url method in
  ev = [ECall c]
  /\ exists d, r = ROk d /\ d !! "method" = Some (VStr name)
     /\ d !! "available" = Some (VBool (match eng k c with UInfo _ => true | _ => false end)).
Proof.
  intros Hv u c name. subst u c name.
  unfold get_video_fallback_info. rewrite Hv. simpl negb. cbv iota zeta.
  destruct (String.eqb method "embed");
    [|destruct (String.eqb method "mobile")];
    unfold try_embed_extraction, try_mobile_extraction, try_basic_extraction,
      try_client_extraction; cbv zeta;
    match goal with |- context [eng k ?c] => destruct (eng k c) end;
    (split; [reflexivity|]); (eexists; split; [reflexivity|]);
    unfold fallback_failed, dict_of; rewrite !dict_of_lookup_go; simpl;
    split; reflexivity.
Qed.

Lemma get_video_fallback_dispatch_witness :
  validate_youtube_url (WATCH ++ RICK) = true
  /\ let '(ev, r) := get_video_fallback_info eng_ok 0 (WATCH ++ RICK) "whatever" in
     ev = [ECall {| ec_url := WATCH ++ RICK; ec_clients := ["android"]; ec_format := "" |}]
     /\ exists d, r = ROk d /\ d !! "method" = Some (VStr "basic")
        /\ d !! "available"
           = Some (VBool (match eng_ok 0 {| ec_url := WATCH ++ RICK; ec_clients := ["android"];
                                           ec_format := "" |} with
                          | UInfo _ => true | _ => false end)).
Proof.
  split; [reflexivity|].
  exact (get_video_fallback_dispatch eng_ok 0 (WATCH ++ RICK) "whatever" eq_refl).
Defined.

Lemma replace_go_no_qmark fuel new s :
  (forall x, In x (list_ascii_of_string s) -> x <> "?"%char) ->
  replace_go fuel "watch?v=" new s = s.
Proof.
  revert s. induction fuel as [|f IH]; intros s Hs; [reflexivity|].
  destruct s as [|c s']; [reflexivity|]. cbn [replace_go].
  destruct (prefixb "watch?v=" (String c s')) eqn:E.
  - exfalso. apply (Hs "?"%char); [|reflexivity].
    apply (prefixb_chars _ _ E). simpl. tauto.
  - f_equal. apply IH. intros x Hx. apply Hs. right. exact Hx.
Qed.

Lemma replace_go_skip f old new c s :
  prefixb old (String c s) = false ->
  replace_go (S f) old new (String c s) = String c (replace_go f old new s).
Proof. intros H. cbn [replace_go]. rewrite H. reflexivity. Qed.

Lemma replace_go_hit f old new c s :
  prefixb old (String c s) = true ->
  replace_go (S f) old new (String c s)
  = new ++ replace_go f old new (drop_prefix old (String c s)).
Proof. intros H. cbn [replace_go]. rewrite H. reflexivity. Qed.

Lemma valid_id_re_ok id : valid_video_id id = true -> id_re_ok id = true.
Proof.
  unfold valid_video_id, id_re_ok. intros H. apply andb_true_iff in H as [Hl Hc].
  rewrite Hl. apply andb_true_iff. split; [reflexivity|]. rewrite forallb_forall in Hc |- *. intros x Hx. cbv beta.
  specialize (Hc x Hx). destruct (existsb (Ascii.eqb x) ["&"; "="; "%"; "?"]%char) eqn:E; [|reflexivity].
  apply existsb_exists in E as (y & Hy & Hxy). apply Ascii.eqb_eq in Hxy. subst y.
  destruct Hy as [<-|[<-|[<-|[<-|[]]]]]; vm_compute in Hc; discriminate.
Qed.

(** [GET /video/fallback?method=embed] on a watch URL of a video id
    probes the embed URL of that id: [url.replace("watch?v=", "embed/")]
    rewrites only the path, since an id has no [?]. *)
Theorem fallback_embed_url eng k id :
  valid_video_id id = true ->
  fst (get_video_fallback_info eng k (WATCH ++ id) "embed")
  = [ECall {| ec_url := EMBED ++ id; ec_clients := []; ec_format := "extract_flat" |}].
Proof.
  intros Hid.
  assert (Hnil : forall s, s ++ "" = s).
  { intros s. induction s as [|x s IH]; [reflexivity|]. rewrite append_String, IH. reflexivity. }
  assert (Hv : validate_youtube_url (WATCH ++ id) = true).
  { pose proof (validate_accepts "https://www.youtube.com/" "watch?v=" id ""
                  ltac:(vm_compute; in_concrete) ltac:(right; left; reflexivity)
                  (valid_id_re_ok id Hid)) as H.
    rewrite Hnil, str_app_assoc in H. exact H. }
  assert (Hc : forallb is_id_char (list_ascii_of_string id) = true).
  { unfold valid_video_id in Hid. apply andb_true_iff in Hid as [_ Hc]. exact Hc. }
  assert (Hn : normalize_youtube_url (WATCH ++ id) = WATCH ++ id).
  { unfold normalize_youtube_url. rewrite (watch_no_youtu_be id Hc).
    destruct (_ && _); reflexivity. }
  assert (Hr : str_replace "watch?v=" "embed/" (WATCH ++ id) = EMBED ++ id).
  { unfold str_replace, WATCH. cbv [String.append]. cbn [String.length].
    repeat (rewrite replace_go_skip by reflexivity).
    rewrite replace_go_hit by reflexivity. cbn [drop_prefix].
    rewrite replace_go_no_qmark; [reflexivity|].
    intros x Hx. exact (proj1 (proj2 (id_chars_no id Hc x Hx))). }
  unfold get_video_fallback_info. rewrite Hv. simpl negb. cbv iota zeta.
  rewrite Hn, String.eqb_refl, Hr. unfold try_embed_extraction. cbv zeta.
  destruct (eng k _); reflexivity.
Qed.

Lemma fallback_embed_url_witness :
  fst (get_video_fallback_info eng_ok 0 (WATCH ++ RICK) "embed")
  = [ECall {| ec_url := EMBED ++ RICK; ec_clients := []; ec_format := "extract_flat" |}].
Proof. apply fallback_embed_url. reflexivity. Defined.

(** ** [/playlist/info] *)

Lemma omap_length_le {A B} (f : A -> option B) (l : list A) :
  (List.length (omap f l) <= List.length l)%nat.
Proof.
  induction l as [|x l IH]; simpl; [lia|].
  destruct (f x); simpl; change (list_omap A B f l) with (omap f l); lia.
Qed.

Lemma playlist_videos_ok (es : list val) :
  forallb (fun e => negb (truthy e) || is_obj e) es = true ->
  playlist_videos es = inl (omap video_of_entry es).
Proof.
  induction es as [|e es IH]; intros H; [reflexivity|].
  cbn [forallb] in H. apply andb_true_iff in H as [He H].
  cbn [playlist_videos]. rewrite (IH H).
  change (omap video_of_entry (e :: es))
    with (match video_of_entry e with Some y => y :: omap video_of_entry es
                                    | None => omap video_of_entry es end).
  unfold video_of_entry.
  destruct (truthy e) eqn:Ht.
  - destruct e; try discriminate He. reflexivity.
  - destruct e; reflexivity.
Qed.

Lemma playlist_videos_err (es : list val) :
  existsb (fun e => truthy e && negb (is_obj e)) es = true ->
  exists m, playlist_videos es = inr m.
Proof.
  induction es as [|e es IH]; intros H; [discriminate H|].
  cbn [existsb] in H. cbn [playlist_videos].
  apply orb_true_iff in H as [H|H].
  - apply andb_true_iff in H as [Ht Ho]. rewrite Ht.
    destruct e; try discriminate Ho; eexists; reflexivity.
  - destruct (IH H) as [m Hm]. rewrite Hm.
    destruct (truthy e); [destruct e|]; eexists; reflexivity.
Qed.

(** [/playlist/info] checks for [playlist] case-insensitively and answers
    a URL without it with a 400 and no engine call.  Otherwise it makes
    one flat listing call.  When the listing's [entries] (default [[]])
    is a list whose truthy elements are all dicts, it succeeds with
    [video_count] the number of entries and [videos] the projections of
    the truthy entries, in order.  A truthy entry that is not a dict, an
    [entries] value without [len], and a failed listing call give a 500. *)
Theorem get_playlist_info_counts eng k url limit :
  let '(ev, p) := get_playlist_info eng k url limit in
  (contains "playlist" (lower url) = false
   -> ev = [] /\ p = inr (400%Z, VStr "Invalid playlist URL"))
  /\ (contains "playlist" (lower url) = true
      -> ev = [ECall (flat_call url)]
         /\ (forall info es, eng k (flat_call url) = UInfo info ->
             get info "entries" (VList []) = VList es ->
             (forallb (fun e => negb (truthy e) || is_obj e) es = true ->
              exists pinfo, p = inl pinfo
                /\ pl_fields pinfo !! "video_count"
                   = Some (VInt (Z.of_nat (List.length es)))
                /\ pl_videos pinfo = omap video_of_entry es)
             /\ (existsb (fun e => truthy e && negb (is_obj e)) es = true ->
                 exists d, p = inr (500%Z, d)))
         /\ (forall info, eng k (flat_call url) = UInfo info ->
             py_len (get info "entries" (VList [])) = None ->
             exists d, p = inr (500%Z, d))
         /\ match eng k (flat_call url) with
            | UInfo _ => True
            | _ => exists d, p = inr (500%Z, d)
            end).
Proof.
  unfold get_playlist_info.
  destruct (contains "playlist" (lower url)) eqn:Hp; cbn [negb]; cbv beta iota zeta.
  2: { split; [intros _; split; reflexivity | discriminate]. }
  destruct (eng k (flat_call url)) as [info| |m|m]; cbv beta iota.
  2-4: split; [discriminate|]; intros _;
       split; [reflexivity|];
       split; [intros info' es Hi; discriminate Hi|];
       split; [intros info' Hi; discriminate Hi | eexists; reflexivity].
  destruct (py_len (get info "entries" (VList []))) as [n|] eqn:Hl;
    [destruct (playlist_videos (py_iter (get info "entries" (VList [])))) as [vids|msg] eqn:Hv|];
    cbv beta iota; (split; [discriminate|]); intros _.
  - split; [reflexivity|]. split; [|split; [intros info' Hi Hn; injection Hi as <-; congruence | exact I]].
    intros info' es Hi Hes. injection Hi as <-.
    rewrite Hes in Hl, Hv. cbn [py_len py_iter] in Hl, Hv. injection Hl as <-.
    split.
    + intros Hf. rewrite (playlist_videos_ok es Hf) in Hv. injection Hv as <-.
      eexists. split; [reflexivity|]. cbn [pl_fields pl_videos]. split; [|reflexivity].
      unfold dict_of. rewrite !dict_of_lookup_go. reflexivity.
    + intros Hx. destruct (playlist_videos_err es Hx) as [m Hm]. congruence.
  - split; [reflexivity|]. split; [|split; [intros; eexists; reflexivity | exact I]].
    intros info' es Hi Hes. injection Hi as <-.
    rewrite Hes in Hl, Hv. cbn [py_len py_iter] in Hl, Hv.
    split; [|intros; eexists; reflexivity].
    intros Hf. rewrite (playlist_videos_ok es Hf) in Hv. discriminate Hv.
  - split; [reflexivity|]. split; [|split; [intros; eexists; reflexivity | exact I]].
    intros info' es Hi Hes. injection Hi as <-. rewrite Hes in Hl. discriminate Hl.
Qed.

(** An upper-case [PLAYLIST] passes the check; an empty entry is counted
    but not listed; an [entries] list holding a string answers 500. *)
Lemma get_playlist_info_counts_witness :
  (exists pinfo,
     (get_playlist_info (fun _ _ => UInfo (dict_of [("entries", VList [VNull; pl_entry RICK])]))
        0 "https://www.youtube.com/PLAYLIST?list=PL0" 50).2 = inl pinfo
     /\ pl_fields pinfo !! "video_count" = Some (VInt 2)
     /\ pl_videos pinfo = omap video_of_entry [VNull; pl_entry RICK])
  /\ (exists d,
        (get_playlist_info (fun _ _ => UInfo (dict_of [("entries", VList [VStr "x"])]))
           0 "https://www.youtube.com/PLAYLIST?list=PL0" 50).2 = inr (500%Z, d)).
Proof.
  split.
  - pose proof (get_playlist_info_counts
           (fun _ _ => UInfo (dict_of [("entries", VList [VNull; pl_entry RICK])]))
           0 "https://www.youtube.com/PLAYLIST?list=PL0" 50) as H.
    destruct (get_playlist_info _ _ _ _) as [ev p]. cbn [snd].
    destruct H as [_ H].
    destruct (H ltac:(vm_compute; reflexivity)) as [_ [H1 _]].
    destruct (proj1 (H1 (dict_of [("entries", VList [VNull; pl_entry RICK])])
                        [VNull; pl_entry RICK] eq_refl ltac:(reflexivity))
                    ltac:(reflexivity)) as [pinfo [Hp [Hc Hv]]].
    exists pinfo. split; [exact Hp|]. split; [exact Hc | exact Hv].
  - pose proof (get_playlist_info_counts
           (fun _ _ => UInfo (dict_of [("entries", VList [VStr "x"])]))
           0 "https://www.youtube.com/PLAYLIST?list=PL0" 50) as H.
    destruct (get_playlist_info _ _ _ _) as [ev p]. cbn [snd].
    destruct H as [_ H].
    destruct (H ltac:(vm_compute; reflexivity)) as [_ [H1 _]].
    exact (proj2 (H1 (dict_of [("entries", VList [VStr "x"])])
                     [VStr "x"] eq_refl ltac:(reflexivity)) ltac:(reflexivity)).
Defined.

(** ** [/video/download] fills the cache [/video/info] reads *)

Lemma truthy_get_nonempty (info : gmap string val) key :
  truthy (get info key VNull) = true -> dict_truthy info = true.
Proof.
  intros H. unfold dict_truthy. rewrite bool_decide_eq_false_2; [reflexivity|].
  intros ->. unfold get in H. rewrite lookup_empty in H. discriminate.
Qed.

(** A successful forced [/video/download] stores the extraction under the
    URL's cache key; a [/video/info] request for the same URL, at least
    2 s later (the shared rate-limit entry) and less than 30 minutes
    later, makes no engine call and answers with that extraction marked
    as cached.  The download's link is the extraction's [url]. *)
Theorem download_fills_info_cache eng fuel k k' url quality format st st1 ev1 d inc t2 :
  get_video_download_links eng fuel k url quality format true st = (st1, ev1, ROk d) ->
  (now st + 2 <= t2)%Q -> (t2 < now st + 1800)%Q ->
  let '(_, ev2, r2) := get_video_info eng k' url inc false (set_now st1 t2) in
  ev2 = []
  /\ exists info, r2 = ROk (cached_response info)
                  /\ d !! "download_url" = Some (get info "url" VNull).
Proof.
  intros H Hle Hlt.
  unfold get_video_download_links in H. rewrite admission_denied_or_allowed, download_kwargs_ip in H.
  destruct (admission_check 20 _ _ _) as [l|w] eqn:Ha; [|discriminate H].
  apply admission_check_allowed in Ha. subst l.
  unfold get_video_download_links_body in H.
  destruct (validate_youtube_url url) eqn:Hv; [|discriminate H]. cbn [negb] in H.
  destruct (quality_option quality) as [qfmt|]; [|discriminate H].
  cbv iota zeta in H.
  set (u := normalize_youtube_url url) in *.
  unfold download_extract, get_download_info_enhanced in H. cbv zeta in H.
  destruct (attempt_loop _ _ _ _ _ _) as [ev0 [info| | |]] in H; try discriminate H.
  cbv iota zeta in H.
  destruct (negb (truthy (get info "url" VNull))) eqn:Hu; [discriminate H|].
  injection H as <- <- <-.
  apply negb_false_iff in Hu.
  cbn [set_cache set_lrt set_now last_request_time now video_cache].
  unfold get_video_info. rewrite admission_denied_or_allowed, info_kwargs_ip.
  cbn [set_cache set_lrt set_now last_request_time now video_cache].
  assert (Hint : admission_check 30 (<["unknown" := now st]> (last_request_time st)) "unknown" t2
                 = Allowed (<["unknown" := t2]> (<["unknown" := now st]> (last_request_time st)))).
  { unfold admission_check. rewrite lookup_insert_eq.
    assert (Hfalse : Qltb (t2 - now st) (inject_Z 60 / inject_Z 30) = false).
    { apply Qltb_false. intros Hq.
      assert (E : (inject_Z 60 / inject_Z 30 == 2)%Q) by reflexivity.
      rewrite E in Hq. lra. }
    rewrite Hfalse. reflexivity. }
  rewrite Hint. unfold get_video_info_body. rewrite Hv. cbn [negb]. fold u.
  cbn [set_cache set_lrt set_now last_request_time now video_cache].
  assert (Hhit : get_cached_video_info (cache_video_info (video_cache st) (now st) u info) t2 u
                 = (cache_video_info (video_cache st) (now st) u info, Some info)).
  { unfold get_cached_video_info, cache_video_info, cache_video_info_m. cbv zeta.
    rewrite lookup_insert_eq. cbn [c_expiry c_info].
    assert (Hq : Qltb t2 (now st + inject_Z (30 * 60)) = true).
    { apply Qltb_iff. assert (E : (inject_Z (30 * 60) == 1800)%Q) by reflexivity.
      rewrite E. exact Hlt. }
    rewrite Hq. reflexivity. }
  rewrite Hhit, (truthy_get_nonempty info "url" Hu).
  split; [reflexivity|]. exists info. split; [reflexivity|].
  unfold dict_of. rewrite dict_of_lookup_go. reflexivity.
Qed.

Lemma download_fills_info_cache_witness :
  let '(st1, ev1, r1) := get_video_download_links eng_ok 10 0 (WATCH ++ RICK) "high" "mp4" true st0 in
  exists d, r1 = ROk d
  /\ let '(_, ev2, r2) := get_video_info eng_ok 1 (WATCH ++ RICK) true false (set_now st1 3) in
     ev2 = []
     /\ exists info, r2 = ROk (cached_response info)
                     /\ d !! "download_url" = Some (get info "url" VNull).
Proof.
  destruct (get_video_download_links eng_ok 10 0 (WATCH ++ RICK) "high" "mp4" true st0)
    as [[st1 ev1] r1] eqn:E.
  assert (Er : r1 = ROk (dict_of
      [("title", VStr "Never Gonna Give You Up"); ("id", VStr RICK); ("duration", VNull);
       ("filesize", VNull); ("ext", VNull); ("format_id", VNull); ("quality", VStr "high");
       ("requested_format", VStr "mp4");
       ("download_url", VStr "https://rr1.googlevideo.com/videoplayback?id=1");
       ("thumbnail", VNull); ("cached", VBool false); ("extraction_method", VStr "enhanced")])).
  { pose proof E as E'. vm_compute in E'. injection E' as _ _ <-. vm_compute. reflexivity. }
  subst r1. eexists. split; [reflexivity|].
  apply (download_fills_info_cache eng_ok 10 0 1 (WATCH ++ RICK) "high" "mp4" st0 st1 ev1);
    [exact E | vm_compute; discriminate | vm_compute; reflexivity].
Defined.

(** ** Members of [/playlist/download] inside the rate-limit window *)

Lemma admission_check_denied cpm lrt ip t w :
  admission_check cpm lrt ip t = Denied w ->
  exists last, lrt !! ip = Some last /\ (t - last < inject_Z 60 / inject_Z cpm)%Q.
Proof.
  unfold admission_check. destruct (lrt !! ip) as [last|]; [|discriminate].
  destruct (Qltb _ _) eqn:E; [|discriminate]. intros _. exists last.
  split; [reflexivity|]. apply Qltb_iff. exact E.
Qed.

Lemma member_call_after eng fuel k quality format video st :
  exists last, last_request_time (member_call eng fuel k quality format video st).1.1 !! "unknown"
               = Some last /\ (now st - last < 3)%Q.
Proof.
  unfold member_call. rewrite admission_denied_or_allowed.
  change (client_ip_of ∅) with "unknown".
  destruct (admission_check 20 (last_request_time st) "unknown" (now st)) as [l|w] eqn:Ha.
  - apply admission_check_allowed in Ha. subst l.
    rewrite download_body_lrt. cbn [set_lrt last_request_time].
    exists (now st). rewrite lookup_insert_eq. split; [reflexivity|]. lra.
  - apply admission_check_denied in Ha as (last & Hl & Hlt).
    assert (E : (inject_Z 60 / inject_Z 20 == 3)%Q) by reflexivity.
    rewrite E in Hlt. exists last. split; [exact Hl | exact Hlt].
Qed.

Lemma playlist_loop_denied eng fuel clock i k quality format videos st last :
  last_request_time st !! "unknown" = Some last ->
  (forall j, (j < List.length videos)%nat -> (clock (i + j)%nat - last < 3)%Q) ->
  let '(_, ev, links) := playlist_loop eng fuel clock i k quality format videos st in
  ev = []
  /\ exists ls, links = Some ls
     /\ Forall2 (fun v l => exists w, l = LinkErr v (exc_str 429 (VStr (rate_limit_detail w))))
                videos ls.
Proof.
  revert i k st. induction videos as [|v vs IH]; intros i k st Hl Hc.
  - split; [reflexivity|]. exists []. split; [reflexivity | constructor].
  - cbn [playlist_loop].
    assert (Em : member_call eng fuel k quality format v (set_now st (clock i))
                 = (set_now st (clock i), [],
                    RHttp 429 (VStr (rate_limit_detail
                                       (inject_Z 60 / inject_Z 20 - (clock i - last)))))).
    { unfold member_call. rewrite admission_denied_or_allowed.
      change (client_ip_of ∅) with "unknown". unfold admission_check.
      cbn [set_now last_request_time now]. rewrite Hl.
      assert (Hq : Qltb (clock i - last) (inject_Z 60 / inject_Z 20) = true).
      { apply Qltb_iff. assert (E : (inject_Z 60 / inject_Z 20 == 3)%Q) by reflexivity.
        rewrite E. specialize (Hc 0%nat ltac:(simpl; lia)). rewrite Nat.add_0_r in Hc.
        exact Hc. }
      rewrite Hq. reflexivity. }
    rewrite Em. cbv beta iota zeta.
    assert (Hc' : forall j, (j < List.length vs)%nat -> (clock (S i + j)%nat - last < 3)%Q).
    { intros j Hj. replace (S i + j)%nat with (i + S j)%nat by lia. apply Hc. simpl. lia. }
    specialize (IH (S i) (k + ncalls []) (set_now st (clock i)) Hl Hc').
    destruct (playlist_loop eng fuel clock (S i) (k + ncalls []) quality format vs
                (set_now st (clock i))) as [[st2 ev2] links].
    destruct IH as [-> (ls & -> & Hf)]. split; [reflexivity|].
    eexists. split; [reflexivity|]. constructor; [eexists; reflexivity | exact Hf].
Qed.

(** Once [last_request_time["unknown"]] holds a time less than 3 s before
    the start of every remaining member, the [/playlist/download] loop
    makes no engine call for them: each one is refused by the rate
    limiter of [/video/download] and listed with its 429 error string. *)
Theorem playlist_loop_throttled eng fuel clock i k quality format videos st last :
  last_request_time st !! "unknown" = Some last ->
  (forall j, (j < List.length videos)%nat -> (clock (i + j)%nat - last < 3)%Q) ->
  let '(_, ev, links) := playlist_loop eng fuel clock i k quality format videos st in
  ev = []
  /\ exists ls, links = Some ls
     /\ Forall2 (fun v l => exists w, l = LinkErr v (exc_str 429 (VStr (rate_limit_detail w))))
                videos ls.
Proof. apply playlist_loop_denied. Qed.

Lemma playlist_loop_throttled_witness :
  let '(_, ev, links) :=
    playlist_loop eng_ok 10 (fun _ => 1%Q) 0 0 "high" "mp4"
      [dict_of [("id", VStr RICK)]; dict_of [("id", VStr "aaaaaaaaaa1")]]
      {| now := 0; video_cache := ∅; last_request_time := {[ "unknown" := 0%Q ]} |} in
  ev = []
  /\ exists ls, links = Some ls
     /\ Forall2 (fun v l => exists w, l = LinkErr v (exc_str 429 (VStr (rate_limit_detail w))))
                [dict_of [("id", VStr RICK)]; dict_of [("id", VStr "aaaaaaaaaa1")]] ls.
Proof.
  apply (playlist_loop_throttled eng_ok 10 (fun _ => 1%Q) 0 0 "high" "mp4"
           [dict_of [("id", VStr RICK)]; dict_of [("id", VStr "aaaaaaaaaa1")]]
           {| now := 0; video_cache := ∅; last_request_time := {[ "unknown" := 0%Q ]} |} 0%Q).
  - reflexivity.
  - intros j _. vm_compute. reflexivity.
Defined.

(** With every member started at the same instant, [/playlist/download]
    refuses all members after the first: whatever the first member's
    outcome, [last_request_time["unknown"]] then lies less than 3 s in
    the past, so each later member gets a 429 error entry. *)
Theorem playlist_same_instant eng fuel t k url quality format limit st :
  let '(_, _, r) := get_playlist_download_links eng fuel (fun _ => t) k url quality format limit st in
  forall pinfo links n, r = PlOk pinfo links n ->
  Forall2 (fun v l => exists w, l = LinkErr v (exc_str 429 (VStr (rate_limit_detail w))))
          (tl (firstn limit (pl_videos pinfo))) (tl links).
Proof.
  unfold get_playlist_download_links.
  destruct (negb (contains "playlist" (lower url))); [intros ? ? ? H; discriminate H|].
  destruct (quality_option quality); [|intros ? ? ? H; discriminate H].
  destruct (get_playlist_info eng k url limit) as [ev0 [pinfo|[sc d]]];
    [|intros ? ? ? H; discriminate H].
  set (vids := firstn limit (pl_videos pinfo)).
  assert (HL : let '(_, _, links) :=
                 playlist_loop eng fuel (fun _ => t) 0 (k + ncalls ev0) quality format vids st in
               forall ls, links = Some ls ->
               Forall2 (fun v l => exists w, l = LinkErr v (exc_str 429 (VStr (rate_limit_detail w))))
                       (tl vids) (tl ls)).
  { clearbody vids. destruct vids as [|v vs].
    - intros ls [= <-]. constructor.
    - cbn [playlist_loop].
      pose proof (member_call_after eng fuel (k + ncalls ev0) quality format v (set_now st t))
        as (last & Hl & Hlt).
      destruct (member_call _ _ _ _ _ _ _) as [[st1 ev1] r1].
      cbn [fst snd set_now now] in Hl, Hlt.
      destruct r1 as [body|status detail|msg|]; cbv beta iota zeta;
        [| | |intros ls [=]];
        (pose proof (playlist_loop_denied eng fuel (fun _ => t) 1 (k + ncalls ev0 + ncalls ev1)
                       quality format vs st1 last Hl (fun j _ => Hlt)) as H;
         destruct (playlist_loop _ _ _ _ _ _ _ _ _) as [[st2 ev2] links];
         destruct H as [_ (ls' & -> & Hf)];
         intros ls [= <-]; exact Hf). }
  destruct (playlist_loop eng fuel (fun _ => t) 0 (k + ncalls ev0) quality format vids st)
    as [[st' ev1] [ls|]];
    intros pinfo' links n Hr; [|discriminate Hr].
  injection Hr as <- <- _. apply HL. reflexivity.
Qed.
